(** * Envelope library of c3: a shallow embedding of [c3/libraries/envelopes.py]

    The module is a registry [envelopes] of pulse-shape functions
    [f(t, params)].  Every function reads named parameters from the Python
    dict [params]; three of them ([flattop], [gaussian], [drag]) also write
    to it.  The embedding follows the source statement by statement:

    - float64 numbers are idealised as the real numbers [R]: rounding,
      overflow, NaN and infinities are not represented there.  The properties
      of the values of [gaussian_sigma], [drag_sigma] and [gaussian_nonorm]
      are therefore stated on the range [well_conditioned] (resp.
      [float64_range]) of parameters, where float64 evaluates the formulas
      without overflow, without underflow of [sigma ** 2] and without
      cancellation of [norm], and they claim no strict inequality that an
      underflow of [exp] to 0.0 would break;
    - the module [Float64] embeds the arithmetic of [gaussian_sigma] and
      [drag_sigma] a second time, per sample and on binary64 numbers, to show
      what the code returns outside that range;
    - TensorFlow / NumPy arrays of rank 0 and 1 are [tensor]s, with the
      broadcasting rule of elementwise operations written out;
    - the dict [params] is a [gmap string pyval] threaded through a
      state-and-exception monad [M], so that what a call leaves in the
      caller's dict is part of its result, also when it raises;
    - Python exceptions are values of [pyerr]. *)

From Stdlib Require Import Reals Lra ZArith.
From Stdlib Require Floats.
From stdpp Require Import base strings gmap list.

#[local] Open Scope R_scope.

(** ** Real-number side: comparisons and the error function *)

#[global] Instance Rle_decision (a b : R) : Decision (a <= b) := Rle_dec a b.
#[global] Instance Rlt_decision (a b : R) : Decision (a < b) := Rlt_dec a b.
#[global] Instance Rge_decision (a b : R) : Decision (a >= b) := Rge_dec a b.
#[global] Instance Rgt_decision (a b : R) : Decision (a > b) := Rgt_dec a b.

(** The integrand of the error function. *)
Definition gauss_kernel (s : R) : R := exp (- s ^ 2).

(** The kernel is continuous, hence integrable between any two bounds. *)
Definition gauss_kernel_integrable (a b : R) :
  Riemann_integrable gauss_kernel a b.
Proof.
  assert (Hcont : continuity gauss_kernel).
  { apply derivable_continuous. intros x. unfold gauss_kernel. reg. }
  destruct (Rle_dec a b) as [Hab | Hab].
  - apply continuity_implies_RiemannInt; [exact Hab |].
    intros; apply Hcont.
  - apply RiemannInt_P1, continuity_implies_RiemannInt; [lra |].
    intros; apply Hcont.
Defined.

(** [tf.math.erf]: erf x = 2/sqrt(pi) * integral of exp(-s^2) for s from 0
    to x. *)
Definition erf (x : R) : R :=
  2 / sqrt PI * RiemannInt (gauss_kernel_integrable 0 x).

(** ** Python exceptions and outcomes *)

Inductive pyerr : Type :=
| KeyError (key : string)            (* params[key] with key absent *)
| AttributeError (attr : string)     (* obj.attr on an object without it *)
| IndexError                         (* shape[0] of a rank-0 shape *)
| TypeError                          (* operand of an unsupported type *)
| InvalidArgumentError.              (* TensorFlow op rejected its input *)

Inductive outcome (A : Type) : Type :=
| Raise (e : pyerr)
| Return (a : A).
Arguments Raise {A} e.
Arguments Return {A} a.

Definition obind {A B : Type} (o : outcome A) (k : A -> outcome B) : outcome B :=
  match o with
  | Raise e => Raise e
  | Return a => k a
  end.

(** ** Tensors of rank 0 and 1, float64 *)

Inductive tensor : Type :=
| Scalar (x : R)
| Vec (xs : list R).

(** Elementwise binary operation with NumPy/TensorFlow broadcasting: a
    rank-0 operand, or a rank-1 operand of length 1, is stretched to the
    other's shape; two rank-1 operands of different lengths, neither of
    length 1, are rejected. *)
Definition broadcast (f : R -> R -> R) (a b : tensor) : outcome tensor :=
  match a, b with
  | Scalar x, Scalar y => Return (Scalar (f x y))
  | Scalar x, Vec ys => Return (Vec (map (f x) ys))
  | Vec xs, Scalar y => Return (Vec (map (fun x => f x y) xs))
  | Vec xs, Vec ys =>
      if decide (length xs = length ys) then Return (Vec (zip_with f xs ys))
      else match xs, ys with
           | [x], _ => Return (Vec (map (f x) ys))
           | _, [y] => Return (Vec (map (fun x => f x y) xs))
           | _, _ => Raise InvalidArgumentError
           end
  end.

Definition tensor_map (f : R -> R) (a : tensor) : tensor :=
  match a with
  | Scalar x => Scalar (f x)
  | Vec xs => Vec (map f xs)
  end.

(** Operators on possibly failed operands, so that an expression of the
    source is one expression here; the leftmost failure wins, as in
    Python's left-to-right evaluation. *)
Definition tbin (f : R -> R -> R) (a b : outcome tensor) : outcome tensor :=
  obind a (fun x => obind b (fun y => broadcast f x y)).

Definition tun (f : R -> R) (a : outcome tensor) : outcome tensor :=
  obind a (fun x => Return (tensor_map f x)).

(** A Python or NumPy number used as an operand is a rank-0 constant. *)
Definition of_float (x : R) : outcome tensor := Return (Scalar x).
Definition of_tensor (a : tensor) : outcome tensor := Return a.
Coercion of_float : R >-> outcome.
Coercion of_tensor : tensor >-> outcome.

Declare Scope tensor_scope.
Delimit Scope tensor_scope with T.
Bind Scope tensor_scope with outcome.
Notation "a + b" := (tbin Rplus a b) : tensor_scope.
Notation "a - b" := (tbin Rminus a b) : tensor_scope.
Notation "a * b" := (tbin Rmult a b) : tensor_scope.
Notation "a / b" := (tbin Rdiv a b) : tensor_scope.
Notation "- a" := (tun Ropp a) : tensor_scope.
Notation "a ** n" := (tun (fun x => x ^ n) a)
  (at level 30, right associativity) : tensor_scope.

Definition tf_exp : outcome tensor -> outcome tensor := tun exp.
Definition tf_erf : outcome tensor -> outcome tensor := tun erf.
Definition tf_sin : outcome tensor -> outcome tensor := tun sin.
Definition tf_cos : outcome tensor -> outcome tensor := tun cos.

(** [tf.cast(x, dtype=tf.float64)] of a float64 value. *)
Definition tf_cast (a : outcome tensor) : outcome tensor := a.

(** What reaches [tf.sqrt]: a float64 tensor, or a bare Python int.
    TensorFlow converts a bare Python int to an int32 constant, and its
    Sqrt kernel accepts floating and complex dtypes only, so the second
    case raises.  NumPy's [np.sqrt] converts an int to float64 instead. *)
Inductive sqrt_arg : Type :=
| F64 (a : outcome tensor)
| PyInt (n : Z).

Definition tf_sqrt (x : sqrt_arg) : outcome tensor :=
  match x with
  | F64 a => tun sqrt a
  | PyInt _ => Raise InvalidArgumentError
  end.

Definition np_sqrt (n : Z) : R := sqrt (IZR n).

(** ** Parameter objects

    Modelled from the spec: the class [Quantity] of [c3.c3objs] (imported
    as [Qty]) is not part of this module.  The spec describes it as an
    object built from a value, bounds and a unit, whose [get_value()]
    gives the value back; [shape] is the shape of that value. *)
Module Quantity.

Record t : Type := Qty { value : tensor; min : tensor; max : tensor; unit : string }.

Definition get_value (q : t) : tensor := value q.

(** [q.shape[0]] *)
Definition shape0 (q : t) : outcome nat :=
  match value q with
  | Scalar _ => Raise IndexError
  | Vec xs => Return (length xs)
  end.

End Quantity.

(** The objects found in a parameter dict: [Quantity] instances and plain
    Python floats ([flattop_variant] reads floats; [flattop] stores one). *)
Inductive pyval : Type :=
| PyFloat (x : R)
| PyQty (q : Quantity.t).

(** [v.get_value()], [v.unit], [v.shape[0]]: a float has none of them. *)
Definition get_value (v : pyval) : outcome tensor :=
  match v with
  | PyQty q => Return (Quantity.get_value q)
  | PyFloat _ => Raise (AttributeError "get_value")
  end.

Definition get_unit (v : pyval) : outcome string :=
  match v with
  | PyQty q => Return (Quantity.unit q)
  | PyFloat _ => Raise (AttributeError "unit")
  end.

Definition get_shape0 (v : pyval) : outcome nat :=
  match v with
  | PyQty q => Quantity.shape0 q
  | PyFloat _ => Raise (AttributeError "shape")
  end.

(** A plain float used in Python arithmetic and comparisons.  What the
    operators of a [Quantity] do there is decided outside this module; the
    embedding stops such a call with [TypeError]. *)
Definition as_float (v : pyval) : outcome R :=
  match v with
  | PyFloat x => Return x
  | PyQty _ => Raise TypeError
  end.

(** ** The monad of an envelope call: the dict [params] is the state *)

Definition M (A : Type) : Type :=
  gmap string pyval -> outcome A * gmap string pyval.

Definition ret {A : Type} (a : A) : M A := fun params => (Return a, params).

Definition bind {A B : Type} (m : M A) (k : A -> M B) : M B :=
  fun params =>
    match m params with
    | (Raise e, params') => (Raise e, params')
    | (Return a, params') => k a params'
    end.

Definition lift {A : Type} (o : outcome A) : M A := fun params => (o, params).

Notation "'let*' x ':=' m 'in' k" := (bind m (fun x => k))
  (at level 10, x name, m at level 100, k at level 200).
Notation "m ';;' k" := (bind m (fun _ => k))
  (at level 100, k at level 200, right associativity).

(** [params[key]] *)
Definition getitem (key : string) : M pyval :=
  fun params =>
    match params !! key with
    | Some v => (Return v, params)
    | None => (Raise (KeyError key), params)
    end.

(** [params[key] = v] *)
Definition setitem (key : string) (v : pyval) : M unit :=
  fun params => (Return tt, <[key := v]> params).

(** [params[key].get_value()] *)
Definition param_value (key : string) : M tensor :=
  let* v := getitem key in lift (get_value v).

(** What an envelope hands back: a tensor, a Python float ([rect]) or the
    dict itself ([pwc]). *)
Inductive pyret : Type :=
| RTensor (a : tensor)
| RFloat (x : R)
| RParams (params : gmap string pyval).

(** ** The envelope functions, in the order of the source *)

(** [tf.zeros_like(t, dtype=tf.float64)] *)
Definition tf_zeros_like (t : list R) : tensor := Vec (map (fun _ => 0) t).

Definition no_drive (t : list R) : M pyret :=
  ret (RTensor (tf_zeros_like t)).

Definition pwc (t : list R) : M pyret :=
  fun params => (Return (RParams params), params).

(** Rank-2 values of the Fourier envelopes, as lists of rows.
    [tf.reshape(v, [v.shape[0], 1])] makes each entry of a rank-1 [v] a row of
    its own; a rank-0 [v] has 1 element, so only the target [1, 1] fits. *)
Definition tf_reshape_column (a : tensor) (n : nat) : outcome (list R) :=
  match a with
  | Vec xs => if decide (length xs = n) then Return xs else Raise InvalidArgumentError
  | Scalar x => if decide (n = 1%nat) then Return [x] else Raise InvalidArgumentError
  end.

(** [column * row] for shapes [m, 1] and [1, N]: the [m] x [N] table. *)
Definition column_times_row (col row : list R) : list (list R) :=
  map (fun f => map (fun e => f * e) row) col.

(** [column * table] for shapes [n, 1] and [m, N], broadcast along axis 0. *)
Definition column_times_table (col : list R) (table : list (list R)) :
  outcome (list (list R)) :=
  if decide (length col = length table) then
    Return (zip_with (fun a row => map (Rmult a) row) col table)
  else match col, table with
       | [a], _ => Return (map (map (Rmult a)) table)
       | _, [row] => Return (map (fun a => map (Rmult a) row) col)
       | _, _ => Raise InvalidArgumentError
       end.

(** [tf.reduce_sum(table, 0)] of a table with [ncols] columns. *)
Definition tf_reduce_sum_0 (ncols : nat) (table : list (list R)) : list R :=
  foldr (zip_with Rplus) (repeat 0 ncols) table.

(** The body shared by [fourier_sin] and [fourier_cos], which differ in
    the function [trig] only:
      amps  = tf.reshape(tf.cast(params['amps'].get_value(), ...), [params['amps'].shape[0], 1])
      freqs = tf.reshape(tf.cast(params['freqs'].get_value(), ...), [params['freqs'].shape[0], 1])
      t     = tf.reshape(tf.cast(t, ...), [1, t.shape[0]])
      return tf.reduce_sum(amps * trig(freqs * t), 0) *)
Definition fourier (trig : R -> R) (t : list R) : M pyret :=
  let* a := getitem "amps" in
  let* av := lift (tf_cast (get_value a)) in
  let* a := getitem "amps" in
  let* an := lift (get_shape0 a) in
  let* amps := lift (tf_reshape_column av an) in
  let* f := getitem "freqs" in
  let* fv := lift (tf_cast (get_value f)) in
  let* f := getitem "freqs" in
  let* fn := lift (get_shape0 f) in
  let* freqs := lift (tf_reshape_column fv fn) in
  let row := t in
  let* table := lift (column_times_table amps
                        (map (map trig) (column_times_row freqs row))) in
  ret (RTensor (Vec (tf_reduce_sum_0 (length row) table))).

Definition fourier_sin : list R -> M pyret := fourier sin.
Definition fourier_cos : list R -> M pyret := fourier cos.

Definition rect (t : list R) : M pyret := ret (RFloat 1).

Definition flattop_risefall (t : list R) : M pyret :=
  let* t_up := param_value "t_up" in
  let* t_down := param_value "t_down" in
  let* risefall := param_value "risefall" in
  let* r := lift ((1 + tf_erf ((Vec t - t_up) / risefall)) / 2
                  * (1 + tf_erf ((- Vec t + t_down) / risefall)) / 2)%T in
  ret (RTensor r).

Definition flattop (t : list R) : M pyret :=
  setitem "risefall" (PyFloat 1e-9);;
  flattop_risefall t.

Definition gaussian_sigma (t : list R) : M pyret :=
  let* t_final := param_value "t_final" in
  let* sigma := param_value "sigma" in
  let* gauss := lift (tf_exp (- (Vec t - t_final / 2) ** 2 / (2 * sigma ** 2)))%T in
  let* norm := lift (tf_sqrt (F64 (2 * PI * sigma ** 2))
                     * tf_erf (t_final / (np_sqrt 8 * sigma))
                     - t_final * tf_exp (- t_final ** 2 / (8 * sigma ** 2)))%T in
  let* offset := lift (tf_exp (- t_final ** 2 / (8 * sigma ** 2)))%T in
  let* r := lift ((gauss - offset) / norm)%T in
  ret (RTensor r).

(** [Qty(value=params['t_final'].get_value()/4, min=.../8, max=.../2,
        unit=params['t_final'].unit)], its arguments evaluated in order. *)
Definition standard_width : M pyval :=
  let* v := param_value "t_final" in
  let* value := lift (v / 4)%T in
  let* v := param_value "t_final" in
  let* min := lift (v / 8)%T in
  let* v := param_value "t_final" in
  let* max := lift (v / 2)%T in
  let* q := getitem "t_final" in
  let* unit := lift (get_unit q) in
  ret (PyQty (Quantity.Qty value min max unit)).

Definition gaussian (t : list R) : M pyret :=
  let* sigma := standard_width in
  setitem "sigma" sigma;;
  gaussian_sigma t.

Definition gaussian_nonorm (t : list R) : M pyret :=
  let* t_final := param_value "t_final" in
  let* sigma := param_value "sigma" in
  let* gauss := lift (tf_exp (- (Vec t - t_final / 2) ** 2 / (2 * sigma ** 2)))%T in
  ret (RTensor gauss).

Definition gaussian_der_nonorm (t : list R) : M pyret :=
  let* t_final := param_value "t_final" in
  let* sigma := param_value "sigma" in
  let* gauss_der := lift (tf_exp (- (Vec t - t_final / 2) ** 2 / (2 * sigma ** 2))
                          * (Vec t - t_final / 2) / sigma ** 2)%T in
  ret (RTensor gauss_der).

Definition gaussian_der (t : list R) : M pyret :=
  let* t_final := param_value "t_final" in
  let* sigma := param_value "sigma" in
  let* gauss_der := lift (tf_exp (- (Vec t - t_final / 2) ** 2 / (2 * sigma ** 2))
                          * (Vec t - t_final / 2) / sigma ** 2)%T in
  let* norm := lift (tf_sqrt (F64 (2 * PI * sigma ** 2))
                     * tf_erf (t_final / (tf_sqrt (PyInt 8) * sigma))
                     - t_final * tf_exp (- t_final ** 2 / (8 * sigma ** 2)))%T in
  let* r := lift (gauss_der / norm)%T in
  ret (RTensor r).

Definition drag_sigma (t : list R) : M pyret :=
  let* t_final := param_value "t_final" in
  let* sigma := param_value "sigma" in
  let* drag := lift (tf_exp (- (Vec t - t_final / 2) ** 2 / (2 * sigma ** 2)))%T in
  let* norm := lift (tf_sqrt (F64 (2 * PI * sigma ** 2))
                     * tf_erf (t_final / (np_sqrt 8 * sigma))
                     - t_final * tf_exp (- t_final ** 2 / (8 * sigma ** 2)))%T in
  let* offset := lift (tf_exp (- t_final ** 2 / (8 * sigma ** 2)))%T in
  let* r := lift ((drag - offset) ** 2 / norm)%T in
  ret (RTensor r).

Definition drag (t : list R) : M pyret :=
  let* sigma := standard_width in
  setitem "sigma" sigma;;
  drag_sigma t.

(** [np.exp] of a tensor: the same numbers as [tf.exp]. *)
Definition np_exp : outcome tensor -> outcome tensor := tun exp.

Definition drag_der (t : list R) : M pyret :=
  let* t_final := param_value "t_final" in
  let* sigma := param_value "sigma" in
  let* norm := lift (tf_sqrt (F64 (2 * PI * sigma ** 2))
                     * tf_erf (t_final / (np_sqrt 8 * sigma))
                     - t_final * tf_exp (- t_final ** 2 / (8 * sigma ** 2)))%T in
  let* offset := lift (tf_exp (- t_final ** 2 / (8 * sigma ** 2)))%T in
  let* der := lift (- 2 * (tf_exp (- (Vec t - t_final / 2) ** 2 / (2 * sigma ** 2)) - offset)
                    * np_exp (- (Vec t - t_final / 2) ** 2 / (2 * sigma ** 2))
                    * (Vec t - t_final / 2) / sigma ** 2 / norm)%T in
  ret (RTensor der).

(** [np.ones(n)] *)
Definition np_ones (n : nat) : list R := repeat 1 n.

(** [enumerate(t)] *)
Definition enumerate (t : list R) : list (nat * R) := imap pair t.

(** One turn of the loop of [flattop_variant]: the assignment to
    [value[i]] chosen by the position of the sample [e]. *)
Definition flattop_variant_step (t_up t_down ramp sigma : R)
    (value : list R) (ie : nat * R) : list R :=
  let '(i, e) := ie in
  if decide (t_up <= e /\ e <= t_up + ramp) then
    <[i := exp (- (e - t_up - ramp) ^ 2 / (2 * sigma ^ 2))]> value
  else if decide (t_up + ramp < e /\ e < t_down - ramp) then
    <[i := 1]> value
  else if decide (t_down >= e /\ e >= t_down - ramp) then
    <[i := exp (- (e - t_down + ramp) ^ 2 / (2 * sigma ^ 2))]> value
  else
    <[i := 0]> value.

Definition flattop_variant (t : list R) : M pyret :=
  let* t_up := getitem "t_up" in
  let* t_down := getitem "t_down" in
  let* ramp := getitem "ramp" in
  let value := np_ones (length t) in
  let* t_up := lift (as_float t_up) in
  let* t_down := lift (as_float t_down) in
  let* ramp := lift (as_float ramp) in
  let ramp := if decide (ramp > (t_down - t_up) / 2) then (t_down - t_up) / 2 else ramp in
  let sigma := np_sqrt 2 * ramp * 0.2 in
  let value := foldl (flattop_variant_step t_up t_down ramp sigma) value (enumerate t) in
  ret (RTensor (Vec value)).

(** ** The registry *)

(** A Python function object: its [__name__] and what calling it does. *)
Record pyfunc : Type := def { __name__ : string; __call__ : list R -> M pyret }.

(** The decorator: [envelopes[str(func.__name__)] = func; return func],
    with the module-level dict [envelopes] as explicit state. *)
Definition env_reg_deco (func : pyfunc) (envelopes : gmap string pyfunc) :
  pyfunc * gmap string pyfunc :=
  (func, <[__name__ func := func]> envelopes).

(** The decorated definitions of the module, in the order they are executed. *)
Definition definitions : list pyfunc :=
  [ def "no_drive" no_drive; def "pwc" pwc; def "fourier_sin" fourier_sin;
    def "fourier_cos" fourier_cos; def "rect" rect;
    def "flattop_risefall" flattop_risefall; def "flattop" flattop;
    def "gaussian_sigma" gaussian_sigma; def "gaussian" gaussian;
    def "gaussian_nonorm" gaussian_nonorm;
    def "gaussian_der_nonorm" gaussian_der_nonorm;
    def "gaussian_der" gaussian_der; def "drag_sigma" drag_sigma;
    def "drag" drag; def "drag_der" drag_der;
    def "flattop_variant" flattop_variant ].

(** The dict [envelopes] after the decorated definitions [defs] have been
    executed, one after the other, on the dict [envelopes0]. *)
Definition registered (envelopes0 : gmap string pyfunc) (defs : list pyfunc) :
  gmap string pyfunc :=
  foldl (fun envelopes func => snd (env_reg_deco func envelopes)) envelopes0 defs.

(** [envelopes = dict()] followed by the decorated definitions. *)
Definition envelopes : gmap string pyfunc := registered ∅ definitions.

(** [envelopes[name]] *)
Definition lookup_envelope (name : string) : outcome pyfunc :=
  match envelopes !! name with
  | Some func => Return func
  | None => Raise (KeyError name)
  end.

(** ** [gaussian_sigma] and [drag_sigma] on binary64 numbers

    The arithmetic of the two functions for one sample [t] and scalar
    [t_final] and [sigma], on IEEE 754 binary64 numbers: [+], [-], [*], [/]
    and [sqrt] are the correctly rounded operations, [x ** 2] is [x * x],
    [np.pi] and [np.sqrt(8)] are the doubles nearest to pi and to the square
    root of 8.  Of [tf.exp] and [tf.math.erf] only the results that IEEE 754
    and C (Annex F) fix are modelled: at NaN, at the infinities and at zero.
    At every other argument the result depends on the mathematical library
    in use and the model gives [None]. *)

Module Float64.
Import Stdlib.Floats.Floats.

(** [tf.exp]: exp(NaN) = NaN, exp(-inf) = +0, exp(+inf) = +inf,
    exp(+-0) = 1. *)
Definition exp (x : float) : option float :=
  if is_nan x then Some nan
  else if (x =? neg_infinity)%float then Some zero
  else if (x =? infinity)%float then Some infinity
  else if is_zero x then Some one
  else None.

(** [tf.math.erf]: erf(NaN) = NaN, erf(+-inf) = +-1, erf(+-0) = +-0. *)
Definition erf (x : float) : option float :=
  if is_nan x then Some nan
  else if (x =? infinity)%float then Some one
  else if (x =? neg_infinity)%float then Some (- one)%float
  else if is_zero x then Some x
  else None.

(** [np.pi] *)
Definition pi : float := 0x1.921fb54442d18p+1%float.

(** The entry of [gaussian_sigma(t, params)] for the sample [t]:
      gauss  = tf.exp(-(t - t_final / 2) ** 2 / (2 * sigma ** 2))
      norm   = (tf.sqrt(2 * np.pi * sigma ** 2)
                * tf.math.erf(t_final / (np.sqrt(8) * sigma))
                - t_final * tf.exp(-t_final ** 2 / (8 * sigma ** 2)))
      offset = tf.exp(-t_final ** 2 / (8 * sigma ** 2))
      return (gauss - offset) / norm *)
Definition gaussian_sigma (t_final sigma t : float) : option float :=
  gauss ← exp (- ((t - t_final / 2) * (t - t_final / 2)) / (2 * (sigma * sigma)))%float;
  erf_term ← erf (t_final / (sqrt 8 * sigma))%float;
  exp_term ← exp (- (t_final * t_final) / (8 * (sigma * sigma)))%float;
  let norm := (sqrt (2 * pi * (sigma * sigma)) * erf_term - t_final * exp_term)%float in
  offset ← exp (- (t_final * t_final) / (8 * (sigma * sigma)))%float;
  Some ((gauss - offset) / norm)%float.

(** The entry of [drag_sigma(t, params)] for the sample [t]: the same
    [norm] and [offset], and
      return (drag - offset) ** 2 / norm *)
Definition drag_sigma (t_final sigma t : float) : option float :=
  drag ← exp (- ((t - t_final / 2) * (t - t_final / 2)) / (2 * (sigma * sigma)))%float;
  erf_term ← erf (t_final / (sqrt 8 * sigma))%float;
  exp_term ← exp (- (t_final * t_final) / (8 * (sigma * sigma)))%float;
  let norm := (sqrt (2 * pi * (sigma * sigma)) * erf_term - t_final * exp_term)%float in
  offset ← exp (- (t_final * t_final) / (8 * (sigma * sigma)))%float;
  Some (((drag - offset) * (drag - offset)) / norm)%float.

End Float64.

(** * Vocabulary of the properties *)

(** ** Effects on the dict *)

(** [preserves m]: running [m] leaves the dict as it found it, whether it
    returns or raises.  [writes_only key m]: every entry other than [key]
    is as before. *)
Definition preserves {A : Type} (m : M A) : Prop :=
  forall params, snd (m params) = params.

Definition writes_only {A : Type} (key : string) (m : M A) : Prop :=
  forall params k, k <> key -> snd (m params) !! k = params !! k.

(** ** Derived quantities and the formulas of the spec, on real numbers *)

(** The [Quantity] that [gaussian] and [drag] build from [t_final]. *)
Definition standard_sigma (q : Quantity.t) : Quantity.t :=
  Quantity.Qty (tensor_map (fun x => x / 4) (Quantity.get_value q))
               (tensor_map (fun x => x / 8) (Quantity.get_value q))
               (tensor_map (fun x => x / 2) (Quantity.get_value q))
               (Quantity.unit q).

(** The Gaussian term, the offset and the normalisation constant of
    [gaussian_sigma] and [drag_sigma], as the spec writes them. *)
Definition gauss_spec (t_final sigma e : R) : R :=
  exp (- (e - t_final / 2) ^ 2 / (2 * sigma ^ 2)).

Definition offset_spec (t_final sigma : R) : R :=
  exp (- t_final ^ 2 / (8 * sigma ^ 2)).

Definition norm_spec (t_final sigma : R) : R :=
  sqrt (2 * PI * sigma ^ 2) * erf (t_final / sqrt (8 * sigma ^ 2))
  - t_final * exp (- t_final ^ 2 / (8 * sigma ^ 2)).

(** The normalisation as the source writes it, with [np.sqrt(8) * sigma]
    under the error function. *)
Definition norm_code (t_final sigma : R) : R :=
  sqrt (2 * PI * sigma ^ 2) * erf (t_final / (np_sqrt 8 * sigma))
  - t_final * exp (- t_final ^ 2 / (8 * sigma ^ 2)).

(** A magnitude that float64 squares without overflow or underflow. *)
Definition float64_range (x : R) : Prop := 1e-100 <= Rabs x <= 1e100.

(** Parameters of [gaussian_sigma] and [drag_sigma] on which float64
    evaluates their formulas as the real numbers do, up to rounding: neither
    [sigma ** 2] nor [t_final ** 2] overflows or underflows, and [sigma] is at
    most [1000 * t_final]: for a large [sigma] the two terms of [norm] differ
    by about [t_final^2 / (12 * sigma^2)] of their size only, and beyond
    [sigma] near [1e7 * t_final] the rounded difference has no reliable
    sign. *)
Definition well_conditioned (t_final sigma : R) : Prop :=
  1e-100 <= sigma /\ sigma <= 1000 * t_final /\ t_final <= 1e100.

(** The spec's formula: the sum over the components [i] of
    [amps[i] * trig (freqs[i] * e)]. *)
Definition fourier_sum (trig : R -> R) (amps freqs : list R) (e : R) : R :=
  foldr Rplus 0 (zip_with (fun a f => a * trig (f * e)) amps freqs).

(** The value the loop of [flattop_variant] assigns for a sample [e]. *)
Definition flattop_variant_value (t_up t_down ramp sigma e : R) : R :=
  if decide (t_up <= e /\ e <= t_up + ramp) then
    exp (- (e - t_up - ramp) ^ 2 / (2 * sigma ^ 2))
  else if decide (t_up + ramp < e /\ e < t_down - ramp) then 1
  else if decide (t_down >= e /\ e >= t_down - ramp) then
    exp (- (e - t_down + ramp) ^ 2 / (2 * sigma ^ 2))
  else 0.

(** ** Concrete inputs *)

(** A [Quantity] with a scalar value, in seconds. *)
Definition seconds (value min max : R) : pyval :=
  PyQty (Quantity.Qty (Scalar value) (Scalar min) (Scalar max) "s").

(** [{'t_final': Qty(10, 0, 20, 's'), 'sigma': Qty(2, 1, 5, 's')}], the
    parameters of the spec's end-to-end scenario. *)
Definition scenario_params : gmap string pyval :=
  <["t_final" := seconds 10 0 20]> (<["sigma" := seconds 2 1 5]> ∅).

(** [{'t_up': Qty(2, 0, 10, 's'), 't_down': Qty(8, 0, 10, 's')}] *)
Definition flattop_params : gmap string pyval :=
  <["t_up" := seconds 2 0 10]> (<["t_down" := seconds 8 0 10]> ∅).

(** [{'amps': Qty([1], [0], [2], 'V'), 'freqs': Qty([w], [0], [2], 'Hz')}] *)
Definition amps_1 : Quantity.t := Quantity.Qty (Vec [1]) (Vec [0]) (Vec [2]) "V".
Definition freqs_1 (w : R) : Quantity.t := Quantity.Qty (Vec [w]) (Vec [0]) (Vec [2]) "Hz".

Definition one_component (w : R) : gmap string pyval :=
  <["amps" := PyQty amps_1]> (<["freqs" := PyQty (freqs_1 w)]> ∅).

(** [{'t_up': 2.0, 't_down': 8.0, 'ramp': 0.0}] *)
Definition variant_params : gmap string pyval :=
  <["t_up" := PyFloat 2]> (<["t_down" := PyFloat 8]> (<["ramp" := PyFloat 0]> ∅)).

(** ** Vocabulary of the further properties *)

(** The integral under [erf]: of [exp(-s^2)] for [s] from 0 to [x]. *)
Definition erf_integral (x : R) : R := RiemannInt (gauss_kernel_integrable 0 x).

(** A primitive of the Gaussian term as a function of the time [t]. *)
Definition gauss_primitive (T s t : R) : R :=
  s * sqrt 2 * erf_integral ((t - T / 2) / (s * sqrt 2)).

(** The function of time that [gaussian_sigma] samples, in the spec's
    formulas. *)
Definition gaussian_sigma_value (T s e : R) : R :=
  (gauss_spec T s e - offset_spec T s) / norm_spec T s.

(** The envelopes that read [t_final] and [sigma]. *)
Definition gaussian_family : list (list R -> M pyret) :=
  [gaussian_sigma; gaussian_nonorm; gaussian_der_nonorm; gaussian_der;
   drag_sigma; drag_der].

(** The function of time that [drag_sigma] samples. *)
Definition drag_sigma_value (T s e : R) : R :=
  (gauss_spec T s e - offset_spec T s) ^ 2 / norm_spec T s.

(** The time vector mirrored about [T/2]. *)
Definition time_reversed (T : R) (t : list R) : list R := map (fun e => T - e) t.

(** The dict holds scalar quantities [t_final = T] and [sigma = s]. *)
Definition scalar_parameters (params : gmap string pyval) (T s : R) : Prop :=
  exists qT qs,
    params !! "t_final" = Some (PyQty qT) /\ Quantity.value qT = Scalar T
    /\ params !! "sigma" = Some (PyQty qs) /\ Quantity.value qs = Scalar s.


(** [{'t_final': Qty(10, 0, 20, 's'), 'sigma': Qty(-2, -5, -1, 's')}] *)
Definition negative_sigma_params : gmap string pyval :=
  <["t_final" := seconds 10 0 20]> (<["sigma" := seconds (-2) (-5) (-1)]> ∅).


(** The dict holds rank-1 quantities [amps] and [freqs]. *)
Definition fourier_parameters (params : gmap string pyval) (amps freqs : list R) : Prop :=
  exists qa qf,
    params !! "amps" = Some (PyQty qa) /\ Quantity.value qa = Vec amps
    /\ params !! "freqs" = Some (PyQty qf) /\ Quantity.value qf = Vec freqs.

(** [{'amps': Qty(amps, ...), 'freqs': Qty(freqs, ...)}] *)
Definition components (amps freqs : list R) : gmap string pyval :=
  <["amps" := PyQty (Quantity.Qty (Vec amps) (Vec []) (Vec []) "V")]>
    (<["freqs" := PyQty (Quantity.Qty (Vec freqs) (Vec []) (Vec []) "Hz")]> ∅).

(** The ramp after the first [if] of [flattop_variant]. *)
Definition clamped_ramp (t_up t_down ramp : R) : R :=
  if decide (ramp > (t_down - t_up) / 2) then (t_down - t_up) / 2 else ramp.

(** The dict holds the plain floats [t_up], [t_down] and [ramp]. *)
Definition float_window (params : gmap string pyval) (t_up t_down ramp : R) : Prop :=
  params !! "t_up" = Some (PyFloat t_up)
  /\ params !! "t_down" = Some (PyFloat t_down)
  /\ params !! "ramp" = Some (PyFloat ramp).

(** [{'t_up': t_up, 't_down': t_down, 'ramp': ramp}] *)
Definition window (t_up t_down ramp : R) : gmap string pyval :=
  <["t_up" := PyFloat t_up]> (<["t_down" := PyFloat t_down]> (<["ramp" := PyFloat ramp]> ∅)).

(** The expression of [flattop_risefall] at the time [e]. *)
Definition flattop_risefall_value (t_up t_down risefall e : R) : R :=
  (1 + erf ((e - t_up) / risefall)) / 2 * (1 + erf ((- e + t_down) / risefall)) / 2.

(** The dict holds scalar quantities [t_up], [t_down] and [risefall]. *)
Definition risefall_parameters (params : gmap string pyval) (t_up t_down risefall : R) :
  Prop :=
  exists qu qd qr,
    params !! "t_up" = Some (PyQty qu) /\ Quantity.value qu = Scalar t_up
    /\ params !! "t_down" = Some (PyQty qd) /\ Quantity.value qd = Scalar t_down
    /\ params !! "risefall" = Some (PyQty qr) /\ Quantity.value qr = Scalar risefall.

(** [{'t_up': Qty(2, 0, 10, 's'), 't_down': Qty(8, 0, 10, 's'),
      'risefall': Qty(1, 0, 2, 's')}] *)
Definition risefall_params : gmap string pyval :=
  <["risefall" := seconds 1 0 2]> flattop_params.

(** * Properties *)

(** ** What a call leaves in the caller's dict *)

Create HintDb frame.

Lemma preserves_ret {A : Type} (a : A) : preserves (ret a).
Proof. intros params. reflexivity. Qed.

Lemma preserves_lift {A : Type} (o : outcome A) : preserves (lift o).
Proof. intros params. reflexivity. Qed.

Lemma preserves_getitem (key : string) : preserves (getitem key).
Proof. intros params. unfold getitem. destruct (params !! key); reflexivity. Qed.

Lemma preserves_bind {A B : Type} (m : M A) (k : A -> M B) :
  preserves m -> (forall a, preserves (k a)) -> preserves (bind m k).
Proof.
  intros Hm Hk params. unfold bind.
  specialize (Hm params). destruct (m params) as [[e | a] params']; simpl in *.
  - exact Hm.
  - rewrite Hk. exact Hm.
Qed.

#[local] Hint Resolve preserves_ret preserves_lift preserves_getitem : frame.
#[local] Hint Extern 2 (preserves (bind _ _)) =>
  apply preserves_bind; [| intros ?] : frame.

Lemma preserves_param_value (key : string) : preserves (param_value key).
Proof. unfold param_value. auto with frame. Qed.

#[local] Hint Resolve preserves_param_value : frame.

Lemma writes_only_preserves {A : Type} (key : string) (m : M A) :
  preserves m -> writes_only key m.
Proof. intros Hm params k _. rewrite Hm. reflexivity. Qed.

Lemma writes_only_setitem (key : string) (v : pyval) :
  writes_only key (setitem key v).
Proof. intros params k Hk. simpl. apply lookup_insert_ne. congruence. Qed.

Lemma writes_only_bind {A B : Type} (key : string) (m : M A) (k : A -> M B) :
  writes_only key m -> (forall a, writes_only key (k a)) ->
  writes_only key (bind m k).
Proof.
  intros Hm Hk params j Hj. unfold bind.
  specialize (Hm params j Hj). destruct (m params) as [[e | a] params']; simpl in *.
  - exact Hm.
  - rewrite Hk by exact Hj. exact Hm.
Qed.

Ltac frame := repeat first
  [ progress auto with frame
  | apply preserves_bind; [| intros ?]
  | match goal with |- preserves (let _ := _ in _) => cbv zeta end ].

Lemma preserves_no_drive t : preserves (no_drive t).
Proof. unfold no_drive. frame. Qed.

Lemma preserves_pwc t : preserves (pwc t).
Proof. intros params. reflexivity. Qed.

Lemma preserves_fourier trig t : preserves (fourier trig t).
Proof. unfold fourier. frame. Qed.

Lemma preserves_rect t : preserves (rect t).
Proof. unfold rect. frame. Qed.

Lemma preserves_flattop_risefall t : preserves (flattop_risefall t).
Proof. unfold flattop_risefall. frame. Qed.

Lemma preserves_gaussian_sigma t : preserves (gaussian_sigma t).
Proof. unfold gaussian_sigma. frame. Qed.

Lemma preserves_gaussian_nonorm t : preserves (gaussian_nonorm t).
Proof. unfold gaussian_nonorm. frame. Qed.

Lemma preserves_gaussian_der_nonorm t : preserves (gaussian_der_nonorm t).
Proof. unfold gaussian_der_nonorm. frame. Qed.

Lemma preserves_gaussian_der t : preserves (gaussian_der t).
Proof. unfold gaussian_der. frame. Qed.

Lemma preserves_drag_sigma t : preserves (drag_sigma t).
Proof. unfold drag_sigma. frame. Qed.

Lemma preserves_drag_der t : preserves (drag_der t).
Proof. unfold drag_der. frame. Qed.

Lemma preserves_flattop_variant t : preserves (flattop_variant t).
Proof. unfold flattop_variant. frame. Qed.

Lemma preserves_standard_width : preserves standard_width.
Proof. unfold standard_width. frame. Qed.

Lemma writes_only_flattop t : writes_only "risefall" (flattop t).
Proof.
  unfold flattop. apply writes_only_bind; [apply writes_only_setitem |].
  intros _. apply writes_only_preserves, preserves_flattop_risefall.
Qed.

Lemma writes_only_gaussian t : writes_only "sigma" (gaussian t).
Proof.
  unfold gaussian.
  apply writes_only_bind; [apply writes_only_preserves, preserves_standard_width |].
  intros sigma. apply writes_only_bind; [apply writes_only_setitem |].
  intros _. apply writes_only_preserves, preserves_gaussian_sigma.
Qed.

Lemma writes_only_drag t : writes_only "sigma" (drag t).
Proof.
  unfold drag.
  apply writes_only_bind; [apply writes_only_preserves, preserves_standard_width |].
  intros sigma. apply writes_only_bind; [apply writes_only_setitem |].
  intros _. apply writes_only_preserves, preserves_drag_sigma.
Qed.

(** ** The registry after a run of decorated definitions *)

Section Registration.

Implicit Types (acc : gmap string pyfunc) (l : list pyfunc) (func : pyfunc).

Lemma registered_absent acc l (name : string) :
  name ∉ map __name__ l -> registered acc l !! name = acc !! name.
Proof.
  revert acc. induction l as [| func l IH]; intros acc Hname; [reflexivity |].
  simpl in *. apply not_elem_of_cons in Hname as [Hne Hname].
  rewrite IH by exact Hname. simpl. apply lookup_insert_ne. congruence.
Qed.

Lemma registered_origin acc l (name : string) func :
  registered acc l !! name = Some func -> func ∈ l \/ acc !! name = Some func.
Proof.
  revert acc. induction l as [| f l IH]; intros acc Hrun; [right; exact Hrun |].
  simpl in Hrun. apply IH in Hrun as [Hin | Hacc].
  - left. apply elem_of_cons. right. exact Hin.
  - simpl in Hacc. destruct (decide (__name__ f = name)) as [<- | Hne].
    + rewrite lookup_insert_eq in Hacc. left. apply elem_of_cons. left. congruence.
    + rewrite lookup_insert_ne in Hacc by exact Hne. right. exact Hacc.
Qed.

(** Every entry sits under the [__name__] of its function. *)
Lemma registered_own_name acc l :
  (forall name func, acc !! name = Some func -> __name__ func = name) ->
  forall name func, registered acc l !! name = Some func -> __name__ func = name.
Proof.
  revert acc. induction l as [| f l IH]; intros acc Hacc name func Hrun.
  - exact (Hacc name func Hrun).
  - simpl in Hrun. refine (IH _ _ name func Hrun). clear - Hacc.
    intros n g Hg. simpl in Hg.
    destruct (decide (__name__ f = n)) as [<- | Hne].
    + rewrite lookup_insert_eq in Hg. congruence.
    + rewrite lookup_insert_ne in Hg by exact Hne. exact (Hacc n g Hg).
Qed.

(** With pairwise different names, each definition is found under its
    own name. *)
Lemma registered_found acc l func :
  NoDup (map __name__ l) -> func ∈ l -> registered acc l !! __name__ func = Some func.
Proof.
  revert acc. induction l as [| f l IH]; intros acc Hnd Hin.
  - apply elem_of_nil in Hin. contradiction.
  - simpl in Hnd. apply NoDup_cons in Hnd as [Hfresh Hnd].
    apply elem_of_cons in Hin as [-> | Hin]; simpl.
    + rewrite registered_absent by exact Hfresh. simpl. apply lookup_insert_eq.
    + apply IH; assumption.
Qed.
End Registration.

Lemma definitions_names :
  map __name__ definitions =
  [ "no_drive"; "pwc"; "fourier_sin"; "fourier_cos"; "rect"; "flattop_risefall";
    "flattop"; "gaussian_sigma"; "gaussian"; "gaussian_nonorm";
    "gaussian_der_nonorm"; "gaussian_der"; "drag_sigma"; "drag"; "drag_der";
    "flattop_variant" ]%string.
Proof. reflexivity. Qed.

Lemma definitions_NoDup : NoDup (map __name__ definitions).
Proof.
  rewrite definitions_names.
  repeat (apply NoDup_cons_2;
          [ rewrite ?elem_of_cons, elem_of_nil; intuition discriminate |]).
  apply NoDup_nil_2.
Qed.

Ltac in_definitions :=
  unfold definitions; repeat first [apply list_elem_of_here | apply list_elem_of_further].

Lemma envelopes_origin (name : string) (func : pyfunc) :
  envelopes !! name = Some func -> func ∈ definitions /\ __name__ func = name.
Proof.
  intros Hreg. split.
  - apply registered_origin in Hreg as [Hin | Hempty]; [exact Hin |].
    rewrite lookup_empty in Hempty. discriminate.
  - revert Hreg. apply registered_own_name. intros n g Hg.
    rewrite lookup_empty in Hg. discriminate.
Qed.

(** C8: looking up a name that is not in the registry raises [KeyError]
    (the source's form of the spec's NameNotFound), and a name that no
    definition carries is not in it; the name of each of the sixteen
    definitions is found and gives that very function; and whatever name a
    lookup succeeds on is the [__name__] of the function it gives, so each
    function is registered under exactly its own identifier. *)
Theorem lookup_envelope_spec (name : string) :
  (envelopes !! name = None -> lookup_envelope name = Raise (KeyError name))
  /\ (name ∉ map __name__ definitions -> envelopes !! name = None)
  /\ (forall func, func ∈ definitions ->
        lookup_envelope (__name__ func) = Return func)
  /\ (forall func, lookup_envelope name = Return func ->
        __name__ func = name /\ func ∈ definitions)
  /\ lookup_envelope "no_drive" = Return (def "no_drive" no_drive)
  /\ lookup_envelope "pwc" = Return (def "pwc" pwc)
  /\ lookup_envelope "rect" = Return (def "rect" rect)
  /\ lookup_envelope "fourier_sin" = Return (def "fourier_sin" fourier_sin)
  /\ lookup_envelope "flattop_variant" = Return (def "flattop_variant" flattop_variant).
Proof.
  assert (Hfound : forall func, func ∈ definitions ->
            lookup_envelope (__name__ func) = Return func).
  { intros func Hin. unfold lookup_envelope, envelopes.
    rewrite (registered_found ∅ definitions func definitions_NoDup Hin). reflexivity. }
  split; [| split; [| split; [exact Hfound | split]]].
  - intros Habsent. unfold lookup_envelope. rewrite Habsent. reflexivity.
  - intros Hname. unfold envelopes.
    rewrite registered_absent by exact Hname. apply lookup_empty.
  - intros func. unfold lookup_envelope.
    destruct (envelopes !! name) as [g |] eqn:Hreg; [| discriminate].
    intros [= <-]. apply envelopes_origin in Hreg as [Hin Hown]. split; assumption.
  - repeat apply conj.
    + apply (Hfound (def "no_drive" no_drive)). in_definitions.
    + apply (Hfound (def "pwc" pwc)). in_definitions.
    + apply (Hfound (def "rect" rect)). in_definitions.
    + apply (Hfound (def "fourier_sin" fourier_sin)). in_definitions.
    + apply (Hfound (def "flattop_variant" flattop_variant)). in_definitions.
Qed.

Lemma lookup_envelope_witness :
  lookup_envelope "not_a_shape" = Raise (KeyError "not_a_shape")
  /\ lookup_envelope "gaussian" = Return (def "gaussian" gaussian).
Proof.
  pose proof (lookup_envelope_spec "not_a_shape") as (Hraise & Habsent & _).
  pose proof (lookup_envelope_spec "gaussian") as (_ & _ & Hfound & _).
  split.
  - apply Hraise, Habsent.
    rewrite definitions_names, ?not_elem_of_cons, elem_of_nil.
    intuition discriminate.
  - apply (Hfound (def "gaussian" gaussian)). in_definitions.
Defined.

(** C7: over the whole registry, a call of any envelope other than
    [flattop], [gaussian] and [drag] leaves the caller's dict exactly as it
    was; after [flattop] every entry except [risefall] is as before (and
    [risefall] is the float the function stored); after [gaussian] and
    after [drag] every entry except [sigma] is as before.  This holds
    whether the call returns or raises. *)
Theorem params_frame (t : list R) (params : gmap string pyval) :
  (forall name func, envelopes !! name = Some func ->
     name ∉ ["flattop"; "gaussian"; "drag"]%string ->
     snd (__call__ func t params) = params)
  /\ (forall key, key <> "risefall"%string ->
        snd (flattop t params) !! key = params !! key)
  /\ snd (flattop t params) !! "risefall"%string = Some (PyFloat 1e-9)
  /\ (forall key, key <> "sigma"%string ->
        snd (gaussian t params) !! key = params !! key)
  /\ (forall key, key <> "sigma"%string ->
        snd (drag t params) !! key = params !! key).
Proof.
  split; [| split; [| split; [| split]]].
  - intros name func Hreg Hname.
    apply envelopes_origin in Hreg as [Hin <-].
    unfold definitions in Hin. rewrite !elem_of_cons, elem_of_nil in Hin.
    rewrite !not_elem_of_cons in Hname. destruct Hname as (Hf & Hg & Hd & _).
    repeat (destruct Hin as [-> | Hin]); simpl in *;
      first [ contradiction | congruence
            | apply preserves_no_drive | apply preserves_pwc
            | apply preserves_fourier | apply preserves_rect
            | apply preserves_flattop_risefall | apply preserves_gaussian_sigma
            | apply preserves_gaussian_nonorm | apply preserves_gaussian_der_nonorm
            | apply preserves_gaussian_der | apply preserves_drag_sigma
            | apply preserves_drag_der | apply preserves_flattop_variant ].
  - intros key Hkey. apply writes_only_flattop. exact Hkey.
  - unfold flattop, bind. simpl.
    rewrite preserves_flattop_risefall. apply lookup_insert_eq.
  - intros key Hkey. apply writes_only_gaussian. exact Hkey.
  - intros key Hkey. apply writes_only_drag. exact Hkey.
Qed.

(** C9: [pwc] returns the dict it was given, whatever the time vector, and
    leaves it unchanged; the result is no tensor over [t], and the number of
    its entries need not be the length of [t]. *)
Theorem pwc_returns_params (t : list R) (params : gmap string pyval) :
  pwc t params = (Return (RParams params), params)
  /\ (forall a, fst (pwc t params) <> Return (RTensor a))
  /\ exists (t' : list R) (params' : gmap string pyval),
       fst (pwc t' params') = Return (RParams params')
       /\ size params' <> length t'.
Proof.
  split; [reflexivity | split].
  - intros a. simpl. discriminate.
  - exists [0; 1; 2], ∅. split; [reflexivity |].
    rewrite map_size_empty. simpl. discriminate.
Qed.

(** ** Running a call on a dict with known entries *)

Lemma getitem_Some (params : gmap string pyval) (key : string) (v : pyval) :
  params !! key = Some v -> getitem key params = (Return v, params).
Proof. intros H. unfold getitem. rewrite H. reflexivity. Qed.

Lemma param_value_Qty (params : gmap string pyval) (key : string) (q : Quantity.t) :
  params !! key = Some (PyQty q) ->
  param_value key params = (Return (Quantity.value q), params).
Proof. intros H. unfold param_value, bind. rewrite (getitem_Some _ _ _ H). reflexivity. Qed.

Lemma param_value_float (params : gmap string pyval) (key : string) (x : R) :
  params !! key = Some (PyFloat x) ->
  param_value key params = (Raise (AttributeError "get_value"), params).
Proof. intros H. unfold param_value, bind. rewrite (getitem_Some _ _ _ H). reflexivity. Qed.

Lemma bind_eq {A B : Type} (m : M A) (k : A -> M B) (params params' : gmap string pyval)
    (a : A) :
  m params = (Return a, params') -> bind m k params = k a params'.
Proof. intros H. unfold bind. rewrite H. reflexivity. Qed.

Lemma bind_raise {A B : Type} (m : M A) (k : A -> M B) (params params' : gmap string pyval)
    (e : pyerr) :
  m params = (Raise e, params') -> bind m k params = (Raise e, params').
Proof. intros H. unfold bind. rewrite H. reflexivity. Qed.

(** Division of a tensor by a Python number. *)
Lemma tensor_div_float (v : tensor) (c : R) :
  (v / c)%T = Return (tensor_map (fun x => x / c) v).
Proof. destruct v; reflexivity. Qed.

Lemma standard_width_Qty (params : gmap string pyval) (q : Quantity.t) :
  params !! "t_final" = Some (PyQty q) ->
  standard_width params = (Return (PyQty (standard_sigma q)), params).
Proof.
  intros H. unfold standard_width.
  rewrite (bind_eq _ _ _ _ _ (param_value_Qty _ _ _ H)).
  unfold lift at 1. rewrite tensor_div_float.
  erewrite bind_eq by reflexivity.
  rewrite (bind_eq _ _ _ _ _ (param_value_Qty _ _ _ H)).
  unfold lift at 1. rewrite tensor_div_float.
  erewrite bind_eq by reflexivity.
  rewrite (bind_eq _ _ _ _ _ (param_value_Qty _ _ _ H)).
  unfold lift at 1. rewrite tensor_div_float.
  erewrite bind_eq by reflexivity.
  rewrite (bind_eq _ _ _ _ _ (getitem_Some _ _ _ H)).
  reflexivity.
Qed.

(** C1: on a dict whose [t_final] is a [Quantity], [gaussian] gives what
    [gaussian_sigma] gives on that dict with [sigma] set to the quantity of
    value [t_final/4] (bounds [t_final/8] and [t_final/2], unit of
    [t_final]), and [drag] gives what [drag_sigma] gives on it: the same
    outcome and the same final dict. *)
Theorem gaussian_drag_delegate (t : list R) (params : gmap string pyval)
    (q : Quantity.t) :
  params !! "t_final" = Some (PyQty q) ->
  let sigma := PyQty (standard_sigma q) in
  get_value sigma = Return (tensor_map (fun x => x / 4) (Quantity.get_value q))
  /\ gaussian t params = gaussian_sigma t (<["sigma" := sigma]> params)
  /\ drag t params = drag_sigma t (<["sigma" := sigma]> params).
Proof.
  intros H sigma. split; [reflexivity | split].
  - unfold gaussian.
    rewrite (bind_eq _ _ _ _ _ (standard_width_Qty _ _ H)). reflexivity.
  - unfold drag.
    rewrite (bind_eq _ _ _ _ _ (standard_width_Qty _ _ H)). reflexivity.
Qed.

(** ** The Gaussian family on scalar parameters *)

Lemma zip_with_map_map (f : R -> R -> R) (g h : R -> R) (t : list R) :
  zip_with f (map g t) (map h t) = map (fun e => f (g e) (h e)) t.
Proof. induction t as [| e t IH]; simpl; [reflexivity | rewrite IH; reflexivity]. Qed.

Lemma decide_same_length (A : Type) (t : list R) (x y : A) :
  (if decide (length t = length t) then x else y) = x.
Proof. apply decide_True. reflexivity. Qed.

(** Evaluate an expression over tensors whose rank-1 operands are all maps
    over the same time vector. *)
Ltac tensor_eval :=
  cbv [lift bind ret tbin tun obind broadcast tensor_map of_float of_tensor
       tf_exp tf_erf tf_sin tf_cos np_exp tf_sqrt tf_cast];
  rewrite ?length_map, ?decide_same_length;
  repeat first [rewrite map_map | rewrite zip_with_map_map].

Section ScalarParameters.
Variables (params : gmap string pyval) (qT qs : Quantity.t) (T s : R).
Hypothesis t_final_entry : params !! "t_final" = Some (PyQty qT).
Hypothesis t_final_value : Quantity.value qT = Scalar T.
Hypothesis sigma_entry : params !! "sigma" = Some (PyQty qs).
Hypothesis sigma_value : Quantity.value qs = Scalar s.

Ltac read_parameters :=
  rewrite (bind_eq _ _ _ _ _ (param_value_Qty _ _ _ t_final_entry)), t_final_value;
  rewrite (bind_eq _ _ _ _ _ (param_value_Qty _ _ _ sigma_entry)), sigma_value.

Lemma gaussian_sigma_scalar (t : list R) :
  gaussian_sigma t params =
  (Return (RTensor (Vec (map (fun e => (gauss_spec T s e - offset_spec T s)
                                       / norm_code T s) t))), params).
Proof.
  unfold gaussian_sigma. read_parameters. tensor_eval. reflexivity.
Qed.

Lemma drag_sigma_scalar (t : list R) :
  drag_sigma t params =
  (Return (RTensor (Vec (map (fun e => (gauss_spec T s e - offset_spec T s) ^ 2
                                       / norm_code T s) t))), params).
Proof.
  unfold drag_sigma. read_parameters. tensor_eval. reflexivity.
Qed.

Lemma gaussian_nonorm_scalar (t : list R) :
  gaussian_nonorm t params =
  (Return (RTensor (Vec (map (gauss_spec T s) t))), params).
Proof.
  unfold gaussian_nonorm. read_parameters. tensor_eval. reflexivity.
Qed.

Lemma gaussian_der_nonorm_scalar (t : list R) :
  gaussian_der_nonorm t params =
  (Return (RTensor (Vec (map (fun e => gauss_spec T s e * (e - T / 2) / s ^ 2) t))),
   params).
Proof.
  unfold gaussian_der_nonorm. read_parameters. tensor_eval. reflexivity.
Qed.

(** [tf.sqrt(8)] stops [gaussian_der] where [gaussian_der_nonorm] returns. *)
Lemma gaussian_der_scalar (t : list R) :
  gaussian_der t params = (Raise InvalidArgumentError, params).
Proof.
  unfold gaussian_der. read_parameters. tensor_eval. reflexivity.
Qed.
End ScalarParameters.

(** ** Calls that cannot return *)

(** Whatever the operands, the normalisation of [gaussian_der] raises: its
    [tf.sqrt(8)] is applied to a Python int. *)
Lemma gaussian_der_norm_raises (t_final sigma : tensor) :
  exists e,
    (tf_sqrt (F64 (2 * PI * sigma ** 2))
     * tf_erf (t_final / (tf_sqrt (PyInt 8) * sigma))
     - t_final * tf_exp (- t_final ** 2 / (8 * sigma ** 2)))%T = Raise e.
Proof.
  unfold tbin at 1 2.
  destruct (tf_sqrt (F64 (2 * PI * sigma ** 2)%T)) as [e | a]; simpl; eauto.
Qed.

Lemma gaussian_der_never_returns (t : list R) (params : gmap string pyval) :
  exists e, fst (gaussian_der t params) = Raise e.
Proof.
  unfold gaussian_der, bind.
  destruct (param_value "t_final" params) as [[e | t_final] p1]; [eauto |].
  destruct (param_value "sigma" p1) as [[e | sigma] p2]; [eauto |].
  destruct (lift _ p2) as [[e | gauss_der] p3]; [eauto |].
  unfold lift at 1.
  destruct (gaussian_der_norm_raises t_final sigma) as [e ->]. eauto.
Qed.

(** After [flattop] has stored the float [1e-9] under [risefall],
    [flattop_risefall] cannot read it with [get_value()]. *)
Lemma flattop_never_returns (t : list R) (params : gmap string pyval) :
  exists e, fst (flattop t params) = Raise e.
Proof.
  unfold flattop, bind at 1. simpl.
  set (params' := <["risefall" := PyFloat 1e-9]> params).
  assert (Hr : params' !! "risefall" = Some (PyFloat 1e-9)) by apply lookup_insert_eq.
  unfold flattop_risefall, bind.
  pose proof (preserves_param_value "t_up" params') as H1.
  destruct (param_value "t_up" params') as [[e | t_up] p1]; [eauto |].
  simpl in H1. subst p1.
  pose proof (preserves_param_value "t_down" params') as H2.
  destruct (param_value "t_down" params') as [[e | t_down] p2]; [eauto |].
  simpl in H2. subst p2.
  rewrite (param_value_float _ _ _ Hr). eauto.
Qed.

Lemma flattop_raises (t : list R) (params : gmap string pyval) (qu qd : Quantity.t) :
  params !! "t_up" = Some (PyQty qu) ->
  params !! "t_down" = Some (PyQty qd) ->
  flattop t params =
  (Raise (AttributeError "get_value"), <["risefall" := PyFloat 1e-9]> params).
Proof.
  intros Hu Hd. unfold flattop, bind at 1. simpl.
  set (params' := <["risefall" := PyFloat 1e-9]> params).
  assert (Hr : params' !! "risefall" = Some (PyFloat 1e-9)) by apply lookup_insert_eq.
  assert (Hu' : params' !! "t_up" = Some (PyQty qu)).
  { unfold params'. rewrite lookup_insert_ne by discriminate. exact Hu. }
  assert (Hd' : params' !! "t_down" = Some (PyQty qd)).
  { unfold params'. rewrite lookup_insert_ne by discriminate. exact Hd. }
  unfold flattop_risefall.
  rewrite (bind_eq _ _ _ _ _ (param_value_Qty _ _ _ Hu')).
  rewrite (bind_eq _ _ _ _ _ (param_value_Qty _ _ _ Hd')).
  rewrite (bind_raise _ _ _ _ _ (param_value_float _ _ _ Hr)). reflexivity.
Qed.

Ltac lookup_entry :=
  repeat first [ apply lookup_insert_eq | rewrite lookup_insert_ne by discriminate ].

Lemma gaussian_drag_delegate_witness :
  gaussian [0; 5; 10] scenario_params
  = gaussian_sigma [0; 5; 10]
      (<["sigma" := PyQty (Quantity.Qty (Scalar (10 / 4)) (Scalar (10 / 8))
                             (Scalar (10 / 2)) "s")]> scenario_params)
  /\ drag [0; 5; 10] scenario_params
     = drag_sigma [0; 5; 10]
         (<["sigma" := PyQty (Quantity.Qty (Scalar (10 / 4)) (Scalar (10 / 8))
                                (Scalar (10 / 2)) "s")]> scenario_params).
Proof.
  refine (proj2 (gaussian_drag_delegate [0; 5; 10] scenario_params
                   (Quantity.Qty (Scalar 10) (Scalar 0) (Scalar 20) "s") _)).
  unfold scenario_params, seconds. lookup_entry.
Defined.

(** C2 (the code departs from the claim): with [t_up] and [t_down]
    present as quantities, [flattop] does not return the flat-top shape.
    It stores the plain float [1e-9] under [risefall], and
    [flattop_risefall] then raises [AttributeError] on
    [params['risefall'].get_value()]; the dict is left with the float in
    it. *)
Theorem flattop_fails_on_float_risefall :
  flattop [0; 5; 10] flattop_params
  = (Raise (AttributeError "get_value"),
     <["risefall" := PyFloat 1e-9]> flattop_params)
  /\ flattop_risefall [0; 5; 10] (<["risefall" := PyFloat 1e-9]> flattop_params)
     = (Raise (AttributeError "get_value"),
        <["risefall" := PyFloat 1e-9]> flattop_params)
  /\ forall t params, exists e, fst (flattop t params) = Raise e.
Proof.
  assert (Hflat : flattop [0; 5; 10] flattop_params
                  = (Raise (AttributeError "get_value"),
                     <["risefall" := PyFloat 1e-9]> flattop_params)).
  { apply (flattop_raises _ _ (Quantity.Qty (Scalar 2) (Scalar 0) (Scalar 10) "s")
                              (Quantity.Qty (Scalar 8) (Scalar 0) (Scalar 10) "s"));
      unfold flattop_params, seconds; lookup_entry. }
  split; [exact Hflat | split; [| exact flattop_never_returns]].
  etransitivity; [| exact Hflat]. reflexivity.
Qed.

(** C5 (the code departs from the claim): on the scenario's parameters
    [gaussian_der_nonorm] returns the derivative of the Gaussian term, but
    [gaussian_der] returns nothing to divide: evaluating its [norm] raises
    at [tf.sqrt(8)], and so it does on every input. *)
Theorem gaussian_der_fails_on_int_sqrt :
  gaussian_der [0; 5; 10] scenario_params = (Raise InvalidArgumentError, scenario_params)
  /\ gaussian_der_nonorm [0; 5; 10] scenario_params
     = (Return (RTensor (Vec (map (fun e => gauss_spec 10 2 e * (e - 10 / 2) / 2 ^ 2)
                                  [0; 5; 10]))), scenario_params)
  /\ forall t params, exists e, fst (gaussian_der t params) = Raise e.
Proof.
  assert (HT : scenario_params !! "t_final" = Some (seconds 10 0 20))
    by (unfold scenario_params; lookup_entry).
  assert (Hs : scenario_params !! "sigma" = Some (seconds 2 1 5))
    by (unfold scenario_params; lookup_entry).
  split; [| split; [| exact gaussian_der_never_returns]].
  - exact (gaussian_der_scalar _ _ _ 10 2 HT eq_refl Hs eq_refl _).
  - exact (gaussian_der_nonorm_scalar _ _ _ 10 2 HT eq_refl Hs eq_refl _).
Qed.

(** ** The normalisation constant is positive *)

Lemma gauss_kernel_decreasing (s x : R) :
  0 <= s -> s <= x -> gauss_kernel x <= gauss_kernel s.
Proof.
  intros Hs Hsx. unfold gauss_kernel.
  destruct (Req_dec s x) as [-> | Hne]; [lra |].
  left. apply exp_increasing. nra.
Qed.

(** On [a, b] with [0 <= a] the integral of the kernel is at least the
    area of the rectangle under its right end. *)
Lemma gauss_kernel_integral_lower (a b : R) :
  0 <= a -> a <= b ->
  gauss_kernel b * (b - a) <= RiemannInt (gauss_kernel_integrable a b).
Proof.
  intros Ha Hab.
  rewrite <- (RiemannInt_P15 (RiemannInt_P14 a b (gauss_kernel b))).
  apply RiemannInt_P19; [exact Hab |].
  intros s Hs. unfold fct_cte. apply gauss_kernel_decreasing; lra.
Qed.

(** Splitting [0, x] in the middle makes the bound strict. *)
Lemma gauss_kernel_integral_above (x : R) :
  0 < x -> x * gauss_kernel x < RiemannInt (gauss_kernel_integrable 0 x).
Proof.
  intros Hx.
  rewrite <- (RiemannInt_P26 (gauss_kernel_integrable 0 (x / 2))
                             (gauss_kernel_integrable (x / 2) x)).
  pose proof (gauss_kernel_integral_lower 0 (x / 2) ltac:(lra) ltac:(lra)) as Hleft.
  pose proof (gauss_kernel_integral_lower (x / 2) x ltac:(lra) ltac:(lra)) as Hright.
  assert (Hmid : gauss_kernel x < gauss_kernel (x / 2)).
  { unfold gauss_kernel. apply exp_increasing. nra. }
  nra.
Qed.

Lemma erf_0 : erf 0 = 0.
Proof. unfold erf. rewrite RiemannInt_P9. lra. Qed.

Lemma sqrt_8 : sqrt 8 = 2 * sqrt 2.
Proof.
  replace 8 with (2 ^ 2 * 2) by lra.
  rewrite sqrt_mult by lra. rewrite sqrt_pow2 by lra. reflexivity.
Qed.

Lemma norm_spec_code (T s : R) : 0 <= s -> norm_spec T s = norm_code T s.
Proof.
  intros Hs. unfold norm_spec, norm_code, np_sqrt.
  rewrite (sqrt_mult 8 (s ^ 2)) by nra. rewrite sqrt_pow2 by exact Hs. reflexivity.
Qed.

Lemma norm_code_pos (T s : R) : 0 < T -> 0 < s -> 0 < norm_code T s.
Proof.
  intros HT Hs. unfold norm_code, np_sqrt, erf.
  pose proof PI_RGT_0 as Hpi.
  assert (Ha : 0 < sqrt 2) by (apply sqrt_lt_R0; lra).
  assert (Hb : 0 < sqrt PI) by (apply sqrt_lt_R0; exact Hpi).
  assert (Haa : sqrt 2 * sqrt 2 = 2) by (apply sqrt_sqrt; lra).
  rewrite sqrt_8.
  replace (sqrt (2 * PI * s ^ 2)) with (sqrt 2 * sqrt PI * s).
  2:{ rewrite !sqrt_mult by nra. rewrite sqrt_pow2 by lra. reflexivity. }
  set (x := T / (2 * sqrt 2 * s)).
  assert (Hx : 0 < x).
  { unfold x. apply Rdiv_lt_0_compat; [exact HT | nra]. }
  assert (HTx : T = 2 * sqrt 2 * s * x).
  { unfold x. field. split; lra. }
  replace (exp (- T ^ 2 / (8 * s ^ 2))) with (gauss_kernel x).
  2:{ unfold gauss_kernel. f_equal. unfold x. field_simplify; [| lra | nra].
      replace (sqrt 2 ^ 2) with 2 by (simpl; lra). field. lra. }
  pose proof (gauss_kernel_integral_above x Hx) as Hint.
  set (I := RiemannInt (gauss_kernel_integrable 0 x)) in *.
  replace (sqrt 2 * sqrt PI * s * (2 / sqrt PI * I) - T * gauss_kernel x)
    with (2 * sqrt 2 * s * (I - x * gauss_kernel x)).
  2:{ rewrite HTx at 1. field. lra. }
  apply Rmult_lt_0_compat; [nra | lra].
Qed.

Lemma norm_spec_pos (T s : R) : 0 < T -> 0 < s -> 0 < norm_spec T s.
Proof.
  intros HT Hs. rewrite norm_spec_code by lra. apply norm_code_pos; assumption.
Qed.

Lemma Forall2_map_same {A B : Type} (P : A -> B -> Prop) (f : A -> B) (l : list A) :
  (forall a, P a (f a)) -> Forall2 P l (map f l).
Proof. intros H. induction l; simpl; constructor; auto. Qed.

(** At both ends of the pulse the Gaussian term is the offset. *)
Lemma gauss_spec_boundary (T s e : R) :
  e = 0 \/ e = T -> gauss_spec T s e = offset_spec T s.
Proof.
  intros He. unfold gauss_spec, offset_spec. f_equal.
  assert (Hsq : (e - T / 2) ^ 2 = T ^ 2 * / 4) by (destruct He as [-> | ->]; field).
  rewrite Hsq. unfold Rdiv.
  replace (8 * s ^ 2) with (4 * (2 * s ^ 2)) by ring.
  rewrite !Rinv_mult. ring.
Qed.

Lemma well_conditioned_pos (T s : R) : well_conditioned T s -> 0 < T /\ 0 < s.
Proof. unfold well_conditioned. intros (Hs & Hratio & HT). split; lra. Qed.

Lemma scenario_well_conditioned : well_conditioned 10 2.
Proof. unfold well_conditioned. repeat apply conj; lra. Qed.

(** C4 (amended): for scalar quantities [t_final] and [sigma] in the
    range [well_conditioned] (1e-100 <= sigma <= 1000 * t_final and
    t_final <= 1e100), [gaussian_sigma] returns one value per time point,
    computed as [(gauss - offset) / norm] with a positive [norm]; at every
    time point equal to [0] or to [t_final] the Gaussian term equals the
    offset [exp(-t_final^2/(8*sigma^2))] and the value is [0], hence within
    every tolerance of [0].  (The values are those of exact real arithmetic,
    which float64 follows up to rounding on this range; at the two ends of
    the pulse the float64 arguments of [gauss] and [offset] are the same
    number, so that the difference is 0.0 there as well.) *)
Theorem gaussian_sigma_boundary (t : list R) (params : gmap string pyval)
    (qT qs : Quantity.t) (T s : R) :
  params !! "t_final" = Some (PyQty qT) -> Quantity.value qT = Scalar T ->
  params !! "sigma" = Some (PyQty qs) -> Quantity.value qs = Scalar s ->
  well_conditioned T s ->
  exists values,
    gaussian_sigma t params = (Return (RTensor (Vec values)), params)
    /\ values = map (fun e => (gauss_spec T s e - offset_spec T s) / norm_spec T s) t
    /\ 0 < norm_spec T s
    /\ Forall2 (fun e x => e = 0 \/ e = T ->
                  gauss_spec T s e = offset_spec T s /\ x = 0
                  /\ forall eps, 0 <= eps -> Rabs x <= eps) t values.
Proof.
  intros HT HvT Hs Hvs [HTpos Hspos]%well_conditioned_pos.
  exists (map (fun e => (gauss_spec T s e - offset_spec T s) / norm_spec T s) t).
  split; [| split; [reflexivity | split]].
  - rewrite (gaussian_sigma_scalar params qT qs T s HT HvT Hs Hvs).
    rewrite norm_spec_code by lra. reflexivity.
  - apply norm_spec_pos; assumption.
  - apply Forall2_map_same. intros e He.
    rewrite (gauss_spec_boundary T s e He).
    assert (Hzero : (offset_spec T s - offset_spec T s) / norm_spec T s = 0)
      by (unfold Rdiv; rewrite Rminus_diag, Rmult_0_l; reflexivity).
    split; [reflexivity | split; [exact Hzero |]].
    intros eps Heps. rewrite Hzero, Rabs_R0. exact Heps.
Qed.

Lemma scenario_t_final : scenario_params !! "t_final" = Some (seconds 10 0 20).
Proof. unfold scenario_params. lookup_entry. Defined.

Lemma scenario_sigma : scenario_params !! "sigma" = Some (seconds 2 1 5).
Proof. unfold scenario_params. lookup_entry. Defined.

Lemma gaussian_sigma_boundary_witness :
  exists values,
    gaussian_sigma [0; 5; 10] scenario_params
    = (Return (RTensor (Vec values)), scenario_params)
    /\ values = map (fun e => (gauss_spec 10 2 e - offset_spec 10 2) / norm_spec 10 2)
                    [0; 5; 10]
    /\ 0 < norm_spec 10 2
    /\ Forall2 (fun e x => e = 0 \/ e = 10 ->
                  gauss_spec 10 2 e = offset_spec 10 2 /\ x = 0
                  /\ forall eps, 0 <= eps -> Rabs x <= eps) [0; 5; 10] values.
Proof.
  exact (gaussian_sigma_boundary [0; 5; 10] scenario_params _ _ 10 2
           scenario_t_final eq_refl scenario_sigma eq_refl scenario_well_conditioned).
Defined.

(** C10 (amended): for scalar quantities [t_final] and [sigma] in the
    range [well_conditioned] (1e-100 <= sigma <= 1000 * t_final and
    t_final <= 1e100), [drag_sigma] returns one value per time point, each
    of them [(gauss - offset)^2 / norm] with the strictly positive
    normalisation constant [norm], and so each of them nonnegative.  (The
    values are those of exact real arithmetic, which float64 follows up to
    rounding on this range.) *)
Theorem drag_sigma_nonnegative (t : list R) (params : gmap string pyval)
    (qT qs : Quantity.t) (T s : R) :
  params !! "t_final" = Some (PyQty qT) -> Quantity.value qT = Scalar T ->
  params !! "sigma" = Some (PyQty qs) -> Quantity.value qs = Scalar s ->
  well_conditioned T s ->
  exists values,
    drag_sigma t params = (Return (RTensor (Vec values)), params)
    /\ values = map (fun e => (gauss_spec T s e - offset_spec T s) ^ 2 / norm_spec T s) t
    /\ 0 < norm_spec T s
    /\ Forall (fun x => 0 <= x) values.
Proof.
  intros HT HvT Hs Hvs [HTpos Hspos]%well_conditioned_pos.
  pose proof (norm_spec_pos T s HTpos Hspos) as Hnorm.
  exists (map (fun e => (gauss_spec T s e - offset_spec T s) ^ 2 / norm_spec T s) t).
  split; [| split; [reflexivity | split; [exact Hnorm |]]].
  - rewrite (drag_sigma_scalar params qT qs T s HT HvT Hs Hvs).
    rewrite norm_spec_code by lra. reflexivity.
  - apply Forall_forall. intros x Hx.
    apply list_elem_of_In, in_map_iff in Hx as (e & <- & _).
    apply Rmult_le_pos; [apply pow2_ge_0 | left; apply Rinv_0_lt_compat; exact Hnorm].
Qed.

Lemma drag_sigma_nonnegative_witness :
  exists values,
    drag_sigma [0; 5; 10] scenario_params
    = (Return (RTensor (Vec values)), scenario_params)
    /\ values = map (fun e => (gauss_spec 10 2 e - offset_spec 10 2) ^ 2 / norm_spec 10 2)
                    [0; 5; 10]
    /\ 0 < norm_spec 10 2
    /\ Forall (fun x => 0 <= x) values.
Proof.
  exact (drag_sigma_nonnegative [0; 5; 10] scenario_params _ _ 10 2
           scenario_t_final eq_refl scenario_sigma eq_refl scenario_well_conditioned).
Defined.

(** ** Outside the well-conditioned range, on binary64 numbers *)

Module Float64Facts.
Import Stdlib.Floats.Floats.

(** C4, where it fails: [t_final = 2^700] and [sigma = 2^-700] are positive
    binary64 numbers; [sigma ** 2] underflows to 0, the arguments of the
    three exponentials are [-inf], that of [erf] is [+inf], and
    [norm = 0 * 1 - t_final * 0] is 0.0.  The entries of [gaussian_sigma]
    at [t = 0] and at [t = t_final] are then 0/0 = NaN, which is not equal
    to 0 and is within no tolerance of 0, however large. *)
Lemma gaussian_sigma_boundary_is_nan :
  (0 <? 0x1p+700)%float = true /\ (0 <? 0x1p-700)%float = true
  /\ Float64.gaussian_sigma 0x1p+700 0x1p-700 0 = Some nan
  /\ Float64.gaussian_sigma 0x1p+700 0x1p-700 0x1p+700 = Some nan
  /\ (nan =? 0)%float = false
  /\ (abs nan <=? infinity)%float = false.
Proof. repeat apply conj; reflexivity. Qed.

(** C10, where it fails: for the same positive [t_final = 2^700] and
    [sigma = 2^-700] the entries of [drag_sigma] at [t = 0] and at
    [t = t_final / 2] are NaN, and NaN is not greater than or equal to 0. *)
Lemma drag_sigma_entry_is_nan :
  (0 <? 0x1p+700)%float = true /\ (0 <? 0x1p-700)%float = true
  /\ Float64.drag_sigma 0x1p+700 0x1p-700 0 = Some nan
  /\ Float64.drag_sigma 0x1p+700 0x1p-700 0x1p+699 = Some nan
  /\ (0 <=? nan)%float = false.
Proof. repeat apply conj; reflexivity. Qed.

End Float64Facts.

(** ** The Fourier envelopes *)

Lemma repeat_as_map (t : list R) : repeat 0 (length t) = map (fun _ => 0) t.
Proof. induction t as [| e t IH]; simpl; [reflexivity | rewrite IH; reflexivity]. Qed.

(** Summing the table of [amps * trig (freqs * t)] over its rows gives the
    formula at each time point. *)
Lemma tf_reduce_sum_0_table (trig : R -> R) (t : list R) :
  forall amps freqs : list R,
    tf_reduce_sum_0 (length t)
      (zip_with (fun a row => map (Rmult a) row) amps
                (map (map trig) (column_times_row freqs t)))
    = map (fourier_sum trig amps freqs) t.
Proof.
  unfold tf_reduce_sum_0, column_times_row, fourier_sum.
  induction amps as [| a amps IH]; intros [| f freqs]; simpl;
    try apply repeat_as_map.
  rewrite IH, !map_map, zip_with_map_map. reflexivity.
Qed.

Lemma length_column_times_row (freqs t : list R) (trig : R -> R) :
  length (map (map trig) (column_times_row freqs t)) = length freqs.
Proof. unfold column_times_row. rewrite !length_map. reflexivity. Qed.

Lemma fourier_equal_lengths (trig : R -> R) (t : list R) (params : gmap string pyval)
    (qa qf : Quantity.t) (amps freqs : list R) :
  params !! "amps" = Some (PyQty qa) -> Quantity.value qa = Vec amps ->
  params !! "freqs" = Some (PyQty qf) -> Quantity.value qf = Vec freqs ->
  length amps = length freqs ->
  fourier trig t params
  = (Return (RTensor (Vec (map (fourier_sum trig amps freqs) t))), params).
Proof.
  intros Ha Hva Hf Hvf Hlen. unfold fourier.
  rewrite (bind_eq _ _ _ _ _ (getitem_Some _ _ _ Ha)).
  unfold get_value at 1, Quantity.get_value, tf_cast, lift at 1.
  erewrite bind_eq by reflexivity.
  rewrite (bind_eq _ _ _ _ _ (getitem_Some _ _ _ Ha)).
  unfold get_shape0 at 1, Quantity.shape0, lift at 1. rewrite Hva.
  erewrite bind_eq by reflexivity.
  unfold tf_reshape_column at 1, lift at 1. rewrite decide_True by reflexivity.
  erewrite bind_eq by reflexivity.
  rewrite (bind_eq _ _ _ _ _ (getitem_Some _ _ _ Hf)).
  unfold get_value at 1, Quantity.get_value, lift at 1.
  erewrite bind_eq by reflexivity.
  rewrite (bind_eq _ _ _ _ _ (getitem_Some _ _ _ Hf)).
  unfold get_shape0 at 1, Quantity.shape0, lift at 1. rewrite Hvf.
  erewrite bind_eq by reflexivity.
  unfold tf_reshape_column at 1, lift at 1. rewrite decide_True by reflexivity.
  erewrite bind_eq by reflexivity.
  cbv zeta. unfold column_times_table, lift at 1.
  rewrite decide_True by (rewrite length_column_times_row; exact Hlen).
  erewrite bind_eq by reflexivity.
  rewrite tf_reduce_sum_0_table. reflexivity.
Qed.

Lemma fourier_sin_one_component (w : R) (t : list R) :
  fourier_sin t (one_component w)
  = (Return (RTensor (Vec (map (fun e => 1 * sin (w * e) + 0) t))), one_component w).
Proof.
  unfold fourier_sin.
  rewrite (fourier_equal_lengths sin t (one_component w) amps_1 (freqs_1 w) [1] [w]);
    [reflexivity | unfold one_component; lookup_entry | reflexivity
    | unfold one_component; lookup_entry | reflexivity | reflexivity].
Qed.

Lemma fourier_sin_zero_frequency :
  fourier_sin [0; PI / 2; PI] (one_component 0)
  = (Return (RTensor (Vec [0; 0; 0])), one_component 0).
Proof.
  rewrite fourier_sin_one_component. simpl.
  rewrite !Rmult_0_l, sin_0. repeat f_equal; lra.
Qed.

(** C3, the spec's example as stated fails: with [amps = [1]] and
    [freqs = [0]] no tolerance below 1 brings the result over
    [0, pi/2, pi] to [0, 1, 0]. *)
Lemma fourier_sin_example_is_not_0_1_0 :
  ~ exists (eps : R) (values : list R),
      eps < 1
      /\ fst (fourier_sin [0; PI / 2; PI] (one_component 0))
         = Return (RTensor (Vec values))
      /\ Forall2 (fun x y => Rabs (x - y) <= eps) values [0; 1; 0].
Proof.
  intros (eps & values & Heps & Hrun & Hclose).
  rewrite fourier_sin_zero_frequency in Hrun. simpl in Hrun.
  injection Hrun as <-.
  inversion Hclose as [| x y xs ys _ Htail]; subst.
  inversion Htail as [| x y xs ys Hmid _]; subst.
  replace (0 - 1) with (- (1)) in Hmid by lra.
  rewrite Rabs_Ropp, Rabs_R1 in Hmid. lra.
Qed.

(** C3, amended: with [amps] and [freqs] of equal length, [fourier_sin]
    returns one value per time point, the sum over the components of
    [amps[i] * sin(freqs[i] * t)], and leaves the dict unchanged.  With
    [amps = [1]] and [freqs = [0]] the result over [0, pi/2, pi] is
    [0, 0, 0], since [sin(0 * t) = 0]; it is with [freqs = [1]] that the
    result is [0, 1, 0]. *)
Theorem fourier_sin_sum (t : list R) (params : gmap string pyval)
    (qa qf : Quantity.t) (amps freqs : list R) :
  params !! "amps" = Some (PyQty qa) -> Quantity.value qa = Vec amps ->
  params !! "freqs" = Some (PyQty qf) -> Quantity.value qf = Vec freqs ->
  length amps = length freqs ->
  (exists values,
     fourier_sin t params = (Return (RTensor (Vec values)), params)
     /\ length values = length t
     /\ values = map (fourier_sum sin amps freqs) t)
  /\ fourier_sin [0; PI / 2; PI] (one_component 0)
     = (Return (RTensor (Vec [0; 0; 0])), one_component 0)
  /\ fourier_sin [0; PI / 2; PI] (one_component 1)
     = (Return (RTensor (Vec [0; 1; 0])), one_component 1).
Proof.
  intros Ha Hva Hf Hvf Hlen. split; [| split].
  - exists (map (fourier_sum sin amps freqs) t).
    split; [| split; [apply length_map | reflexivity]].
    exact (fourier_equal_lengths sin t params qa qf amps freqs Ha Hva Hf Hvf Hlen).
  - exact fourier_sin_zero_frequency.
  - rewrite fourier_sin_one_component. simpl.
    rewrite !Rmult_1_l, sin_0, sin_PI2, sin_PI. repeat f_equal; lra.
Qed.

Lemma fourier_sin_sum_witness :
  exists values,
    fourier_sin [0; PI / 2; PI] (one_component 1)
    = (Return (RTensor (Vec values)), one_component 1)
    /\ length values = 3%nat
    /\ values = map (fourier_sum sin [1] [1]) [0; PI / 2; PI].
Proof.
  refine (proj1 (fourier_sin_sum [0; PI / 2; PI] (one_component 1)
                   amps_1 (freqs_1 1) [1] [1] _ eq_refl _ eq_refl eq_refl));
    unfold one_component; lookup_entry.
Defined.

(** ** The loop of [flattop_variant] *)

Lemma flattop_variant_step_insert (t_up t_down ramp sigma : R) (value : list R)
    (i : nat) (e : R) :
  flattop_variant_step t_up t_down ramp sigma value (i, e)
  = <[i := flattop_variant_value t_up t_down ramp sigma e]> value.
Proof.
  unfold flattop_variant_step, flattop_variant_value.
  repeat case_decide; reflexivity.
Qed.

(** Loop invariant: once the samples before position [length done] are
    processed, [value] is [done] followed by the entries not yet assigned. *)
Lemma flattop_variant_loop (t_up t_down ramp sigma : R) (t : list R) :
  forall done rest : list R,
    length rest = length t ->
    foldl (flattop_variant_step t_up t_down ramp sigma) (done ++ rest)
          (imap (fun i e => (length done + i, e)%nat) t)
    = done ++ map (flattop_variant_value t_up t_down ramp sigma) t.
Proof.
  induction t as [| e t IH]; intros done rest Hlen.
  - destruct rest; [reflexivity | discriminate].
  - destruct rest as [| r rest]; [discriminate |].
    rewrite imap_cons. cbn [foldl]. rewrite flattop_variant_step_insert.
    rewrite insert_app_r. cbn [list_insert insert].
    specialize (IH (done ++ [flattop_variant_value t_up t_down ramp sigma e]) rest).
    rewrite <- !app_assoc in IH. simpl in IH.
    cbn [map]. rewrite <- IH by (simpl in Hlen; lia).
    f_equal. apply imap_ext. intros i x _. simpl.
    rewrite length_app. simpl. f_equal. lia.
Qed.

Lemma flattop_variant_floats (t : list R) (params : gmap string pyval)
    (t_up t_down ramp : R) :
  params !! "t_up" = Some (PyFloat t_up) ->
  params !! "t_down" = Some (PyFloat t_down) ->
  params !! "ramp" = Some (PyFloat ramp) ->
  let ramp' := if decide (ramp > (t_down - t_up) / 2) then (t_down - t_up) / 2 else ramp in
  flattop_variant t params
  = (Return (RTensor (Vec (map (flattop_variant_value t_up t_down ramp'
                                  (np_sqrt 2 * ramp' * 0.2)) t))), params).
Proof.
  intros Hu Hd Hr ramp'. unfold flattop_variant.
  rewrite (bind_eq _ _ _ _ _ (getitem_Some _ _ _ Hu)).
  rewrite (bind_eq _ _ _ _ _ (getitem_Some _ _ _ Hd)).
  rewrite (bind_eq _ _ _ _ _ (getitem_Some _ _ _ Hr)).
  cbv zeta. unfold as_float, lift, bind, ret. fold ramp'.
  pose proof (flattop_variant_loop t_up t_down ramp' (np_sqrt 2 * ramp' * 0.2) t
                [] (np_ones (length t))) as Hloop.
  simpl in Hloop. unfold enumerate.
  change (imap pair t) with (imap (fun (i : nat) (e : R) => (i, e)) t).
  rewrite Hloop; [reflexivity |].
  unfold np_ones. apply repeat_length.
Qed.

(** C6: with plain-float parameters [t_up < t_down] and [ramp = 0],
    [flattop_variant] returns one value per time point: [1] where the time
    lies strictly between [t_up] and [t_down], [0] where it lies strictly
    outside [[t_up, t_down]].  The dict is unchanged. *)
Theorem flattop_variant_zero_ramp (t : list R) (params : gmap string pyval)
    (t_up t_down : R) :
  params !! "t_up" = Some (PyFloat t_up) ->
  params !! "t_down" = Some (PyFloat t_down) ->
  params !! "ramp" = Some (PyFloat 0) ->
  t_up < t_down ->
  exists value,
    flattop_variant t params = (Return (RTensor (Vec value)), params)
    /\ length value = length t
    /\ Forall2 (fun e x => (t_up < e < t_down -> x = 1)
                           /\ (e < t_up \/ t_down < e -> x = 0)) t value.
Proof.
  intros Hu Hd Hr Hlt.
  pose proof (flattop_variant_floats t params t_up t_down 0 Hu Hd Hr) as Hrun.
  cbv zeta in Hrun. rewrite decide_False in Hrun by lra.
  eexists. split; [exact Hrun | split; [apply length_map |]].
  apply Forall2_map_same. intros e. unfold flattop_variant_value.
  split; intros He; repeat case_decide; try reflexivity; lra.
Qed.

Lemma flattop_variant_zero_ramp_witness :
  exists value,
    flattop_variant [1; 5; 9] variant_params = (Return (RTensor (Vec value)), variant_params)
    /\ length value = 3%nat
    /\ Forall2 (fun e x => (2 < e < 8 -> x = 1) /\ (e < 2 \/ 8 < e -> x = 0))
               [1; 5; 9] value.
Proof.
  apply (flattop_variant_zero_ramp [1; 5; 9] variant_params 2 8);
    [ unfold variant_params; lookup_entry | unfold variant_params; lookup_entry
    | unfold variant_params; lookup_entry | lra ].
Defined.

(** * Further properties of the envelopes *)

(** ** The error function: derivative and symmetry of its integral *)

Lemma gauss_kernel_continuity : continuity gauss_kernel.
Proof. apply derivable_continuous. intros x. unfold gauss_kernel. reg. Qed.

Lemma erf_integral_derivative (x : R) :
  derivable_pt_lim erf_integral x (gauss_kernel x).
Proof.
  set (B := Rabs x + 1).
  assert (HB : - B < x < B).
  { unfold B. pose proof (Rle_abs x). pose proof (Rle_abs (- x)) as H'.
    rewrite Rabs_Ropp in H'. lra. }
  assert (h : - B <= B) by lra.
  assert (C0 : forall z, - B <= z <= B -> continuity_pt gauss_kernel z)
    by (intros; apply gauss_kernel_continuity).
  pose proof (RiemannInt_P27 h C0 HB) as HP.
  set (C := RiemannInt (gauss_kernel_integrable (- B) 0)).
  apply (derivable_pt_lim_locally_ext
           (fun z => primitive h (FTC_P1 h C0) z - fct_cte C z) erf_integral x (- B) B);
    [exact HB | |].
  - intros z Hz. unfold primitive, fct_cte, erf_integral, C.
    destruct (Rle_dec (- B) z) as [H1 | H1]; [| lra].
    destruct (Rle_dec z B) as [H2 | H2]; [| lra].
    rewrite (RiemannInt_P5 _ (gauss_kernel_integrable (- B) z)).
    rewrite <- (RiemannInt_P26 (gauss_kernel_integrable (- B) 0)
                               (gauss_kernel_integrable 0 z)
                               (gauss_kernel_integrable (- B) z)).
    ring.
  - replace (gauss_kernel x) with (gauss_kernel x - 0) by ring.
    apply (derivable_pt_lim_minus _ (fct_cte C)); [exact HP |].
    apply derivable_pt_lim_const.
Qed.

Lemma gauss_kernel_even (x : R) : gauss_kernel (- x) = gauss_kernel x.
Proof. unfold gauss_kernel. f_equal. ring. Qed.

Lemma erf_integral_0 : erf_integral 0 = 0.
Proof. unfold erf_integral. apply RiemannInt_P9. Qed.

Lemma erf_integral_odd (x : R) : erf_integral (- x) = - erf_integral x.
Proof.
  set (K := fun z => erf_integral z + erf_integral (- z)).
  assert (HK : forall z, derivable_pt_lim K z 0).
  { intros z. unfold K.
    replace 0 with (gauss_kernel z + gauss_kernel (- z) * (- 1))
      by (rewrite gauss_kernel_even; ring).
    apply (derivable_pt_lim_plus erf_integral (fun z => erf_integral (- z)));
      [apply erf_integral_derivative |].
    apply (derivable_pt_lim_comp (fun z => - z) erf_integral);
      [| apply erf_integral_derivative].
    replace (-1) with (- (1)) by ring.
    apply (derivable_pt_lim_opp id), derivable_pt_lim_id. }
  assert (dK : derivable K) by (intros z; exists 0; apply HK).
  assert (Hc : constant K).
  { apply (null_derivative_1 K dK). intros z. apply derive_pt_eq_0, HK. }
  specialize (Hc x 0). unfold K in Hc.
  rewrite Ropp_0, erf_integral_0 in Hc. lra.
Qed.

(** ** The area under the Gaussian *)

Lemma sqrt2_pos : 0 < sqrt 2.
Proof. apply sqrt_lt_R0; lra. Qed.

Lemma sqrt2_sqr : sqrt 2 * sqrt 2 = 2.
Proof. apply sqrt_sqrt; lra. Qed.

Lemma gauss_spec_kernel (T s t : R) :
  s <> 0 -> gauss_spec T s t = gauss_kernel ((t - T / 2) / (s * sqrt 2)).
Proof.
  intros Hs. unfold gauss_spec, gauss_kernel. f_equal.
  pose proof sqrt2_pos as Hpos. pose proof sqrt2_sqr as H2.
  replace (((t - T / 2) / (s * sqrt 2)) ^ 2)
    with ((t - T / 2) ^ 2 / (s ^ 2 * (sqrt 2 * sqrt 2))) by (field; split; lra).
  rewrite H2. field. exact Hs.
Qed.

Lemma gauss_primitive_derivative (T s t : R) :
  s <> 0 -> derivable_pt_lim (gauss_primitive T s) t (gauss_spec T s t).
Proof.
  intros Hs. pose proof sqrt2_pos as H2.
  rewrite (gauss_spec_kernel T s t Hs).
  set (u := fun z => (z - T / 2) / (s * sqrt 2)).
  assert (Hu : derivable_pt_lim u t (/ (s * sqrt 2))).
  { unfold u. replace (/ (s * sqrt 2)) with ((1 - 0) / (s * sqrt 2)) by (field; split; lra).
    apply (derivable_pt_lim_div_scal (fun z => z - T / 2)).
    apply (derivable_pt_lim_minus id (fct_cte (T / 2)));
      [apply derivable_pt_lim_id | apply derivable_pt_lim_const]. }
  change ((t - T / 2) / (s * sqrt 2)) with (u t).
  replace (gauss_kernel (u t))
    with (s * sqrt 2 * (gauss_kernel (u t) * / (s * sqrt 2))) by (field; split; lra).
  change (gauss_primitive T s)
    with (mult_real_fct (s * sqrt 2) (comp erf_integral u)).
  apply derivable_pt_lim_scal.
  apply (derivable_pt_lim_comp u erf_integral); [exact Hu |].
  apply erf_integral_derivative.
Qed.

Lemma gauss_spec_continuity (T s : R) : continuity (gauss_spec T s).
Proof. apply derivable_continuous. intros x. unfold gauss_spec. reg. Qed.

Lemma gauss_spec_integral (T s : R) (pr : Riemann_integrable (gauss_spec T s) 0 T) :
  0 < s -> 0 <= T ->
  RiemannInt pr = sqrt (2 * PI * s ^ 2) * erf (T / sqrt (8 * s ^ 2)).
Proof.
  intros Hs HT. assert (Hs0 : s <> 0) by lra.
  assert (dF : derivable (gauss_primitive T s)).
  { intros t. exists (gauss_spec T s t). apply gauss_primitive_derivative, Hs0. }
  assert (Hd : forall t, derive (gauss_primitive T s) dF t = gauss_spec T s t).
  { intros t. unfold derive. apply derive_pt_eq_0, gauss_primitive_derivative, Hs0. }
  assert (cF : continuity (derive (gauss_primitive T s) dF)).
  { intros t. apply (continuity_pt_locally_ext (gauss_spec T s) _ 1 t); [lra | |].
    - intros y _. symmetry. apply Hd.
    - apply gauss_spec_continuity. }
  set (F := mkC1 cF).
  pose proof (FTC_Riemann F (RiemannInt_P32 F 0 T)) as HFTC.
  rewrite (RiemannInt_P18 pr (RiemannInt_P32 F 0 T) HT).
  2:{ intros x _. symmetry. apply Hd. }
  rewrite HFTC. unfold F. cbn [c1]. unfold gauss_primitive, erf.
  pose proof sqrt2_pos as H2. pose proof sqrt2_sqr as H22.
  pose proof PI_RGT_0 as Hpi.
  assert (Hb : 0 < sqrt PI) by (apply sqrt_lt_R0; exact Hpi).
  replace ((0 - T / 2) / (s * sqrt 2)) with (- ((T - T / 2) / (s * sqrt 2)))
    by (field; split; lra).
  rewrite erf_integral_odd.
  rewrite (sqrt_mult 8 (s ^ 2)) by nra. rewrite sqrt_pow2 by lra. rewrite sqrt_8.
  replace (sqrt (2 * PI * s ^ 2)) with (sqrt 2 * sqrt PI * s).
  2:{ rewrite !sqrt_mult by nra. rewrite sqrt_pow2 by lra. reflexivity. }
  replace (T / (2 * sqrt 2 * s)) with ((T - T / 2) / (s * sqrt 2)) by (field; split; lra).
  fold (erf_integral ((T - T / 2) / (s * sqrt 2))).
  field. lra.
Qed.

Lemma gaussian_sigma_value_integrable (T s : R) :
  Riemann_integrable (gaussian_sigma_value T s) 0 T.
Proof.
  assert (Hc : continuity (gaussian_sigma_value T s)).
  { apply derivable_continuous. intros x. unfold gaussian_sigma_value, gauss_spec. reg. }
  destruct (Rle_dec 0 T) as [H | H].
  - apply continuity_implies_RiemannInt; [exact H | intros; apply Hc].
  - apply RiemannInt_P1, continuity_implies_RiemannInt; [lra | intros; apply Hc].
Qed.

Lemma gaussian_sigma_area (T s : R) (pr : Riemann_integrable (gaussian_sigma_value T s) 0 T) :
  0 < T -> 0 < s -> RiemannInt pr = 1.
Proof.
  intros HT Hs. pose proof (norm_spec_pos T s HT Hs) as Hn.
  assert (prg : Riemann_integrable (gauss_spec T s) 0 T).
  { apply continuity_implies_RiemannInt; [lra | intros; apply gauss_spec_continuity]. }
  set (c := - offset_spec T s / norm_spec T s).
  pose proof (RiemannInt_P14 0 T c) as prc.
  pose proof (RiemannInt_P10 (/ norm_spec T s) prc prg) as prs.
  rewrite (RiemannInt_P18 pr prs) by
    (try lra; intros x _; unfold gaussian_sigma_value, fct_cte, c; field; lra).
  rewrite (RiemannInt_P13 prc prg prs), RiemannInt_P15.
  rewrite (gauss_spec_integral T s prg Hs) by lra.
  unfold c. unfold norm_spec in *. unfold offset_spec. field. lra.
Qed.

(** ** [gaussian] and [drag]: failing and overwriting *)

Lemma getitem_None (params : gmap string pyval) (key : string) :
  params !! key = None -> getitem key params = (Raise (KeyError key), params).
Proof. intros H. unfold getitem. rewrite H. reflexivity. Qed.

Lemma param_value_None (params : gmap string pyval) (key : string) :
  params !! key = None -> param_value key params = (Raise (KeyError key), params).
Proof. intros H. unfold param_value, bind. rewrite (getitem_None _ _ H). reflexivity. Qed.

Lemma standard_width_None (params : gmap string pyval) :
  params !! "t_final" = None ->
  standard_width params = (Raise (KeyError "t_final"), params).
Proof.
  intros H. unfold standard_width.
  apply bind_raise, param_value_None, H.
Qed.

Lemma standard_width_float (params : gmap string pyval) (x : R) :
  params !! "t_final" = Some (PyFloat x) ->
  standard_width params = (Raise (AttributeError "get_value"), params).
Proof.
  intros H. unfold standard_width.
  apply bind_raise, (param_value_float _ _ x), H.
Qed.

(** X1: [gaussian] and [drag] fail before they write: when [t_final] is
    missing they raise [KeyError] on it, and when it is a plain float they
    raise [AttributeError] on [get_value]; in both cases the caller's dict
    is exactly as it was, with no [sigma] added. *)
Theorem gaussian_drag_fail_before_writing (t : list R) (params : gmap string pyval) :
  (params !! "t_final" = None ->
     gaussian t params = (Raise (KeyError "t_final"), params)
     /\ drag t params = (Raise (KeyError "t_final"), params))
  /\ (forall x, params !! "t_final" = Some (PyFloat x) ->
        gaussian t params = (Raise (AttributeError "get_value"), params)
        /\ drag t params = (Raise (AttributeError "get_value"), params)).
Proof.
  split.
  - intros H. split; [unfold gaussian | unfold drag];
      apply bind_raise, standard_width_None, H.
  - intros x H. split; [unfold gaussian | unfold drag];
      apply bind_raise, (standard_width_float _ x), H.
Qed.

Lemma gaussian_run (t : list R) (params : gmap string pyval) (q : Quantity.t) :
  params !! "t_final" = Some (PyQty q) ->
  gaussian t params = gaussian_sigma t (<["sigma" := PyQty (standard_sigma q)]> params).
Proof.
  intros H. unfold gaussian.
  rewrite (bind_eq _ _ _ _ _ (standard_width_Qty _ _ H)). reflexivity.
Qed.

Lemma drag_run (t : list R) (params : gmap string pyval) (q : Quantity.t) :
  params !! "t_final" = Some (PyQty q) ->
  drag t params = drag_sigma t (<["sigma" := PyQty (standard_sigma q)]> params).
Proof.
  intros H. unfold drag.
  rewrite (bind_eq _ _ _ _ _ (standard_width_Qty _ _ H)). reflexivity.
Qed.

(** X2: [gaussian] and [drag] never read the caller's [sigma]: whatever
    is stored under [sigma] beforehand, the outcome and the final dict are
    the same, so a [sigma] supplied by the caller is silently replaced by
    the one derived from [t_final]; calling either function again on the
    dict it left behind gives the same outcome and dict once more. *)
Theorem gaussian_drag_overwrite_sigma (t : list R) (params : gmap string pyval)
    (q : Quantity.t) (v : pyval) :
  params !! "t_final" = Some (PyQty q) ->
  gaussian t (<["sigma" := v]> params) = gaussian t params
  /\ drag t (<["sigma" := v]> params) = drag t params
  /\ gaussian t (snd (gaussian t params)) = gaussian t params
  /\ drag t (snd (drag t params)) = drag t params.
Proof.
  intros H.
  assert (H' : forall w, <["sigma" := w]> params !! "t_final" = Some (PyQty q)).
  { intros w. rewrite lookup_insert_ne by discriminate. exact H. }
  assert (Hg : forall w, gaussian t (<["sigma" := w]> params) = gaussian t params).
  { intros w. rewrite (gaussian_run t _ q (H' w)), (gaussian_run t _ q H).
    rewrite insert_insert_eq. reflexivity. }
  assert (Hd : forall w, drag t (<["sigma" := w]> params) = drag t params).
  { intros w. rewrite (drag_run t _ q (H' w)), (drag_run t _ q H).
    rewrite insert_insert_eq. reflexivity. }
  split; [apply Hg | split; [apply Hd | split]].
  - rewrite (gaussian_run t _ q H) at 1. rewrite preserves_gaussian_sigma. apply Hg.
  - rewrite (drag_run t _ q H) at 1. rewrite preserves_drag_sigma. apply Hd.
Qed.

Lemma gaussian_drag_overwrite_sigma_witness :
  gaussian [0; 5; 10] (<["sigma" := PyFloat 1]> scenario_params)
  = gaussian [0; 5; 10] scenario_params
  /\ drag [0; 5; 10] (<["sigma" := PyFloat 1]> scenario_params)
     = drag [0; 5; 10] scenario_params
  /\ gaussian [0; 5; 10] (snd (gaussian [0; 5; 10] scenario_params))
     = gaussian [0; 5; 10] scenario_params
  /\ drag [0; 5; 10] (snd (drag [0; 5; 10] scenario_params))
     = drag [0; 5; 10] scenario_params.
Proof.
  apply (gaussian_drag_overwrite_sigma [0; 5; 10] scenario_params
           (Quantity.Qty (Scalar 10) (Scalar 0) (Scalar 20) "s") (PyFloat 1)
           scenario_t_final).
Defined.

(** ** Missing parameters, the derived [sigma], the decorator *)

(** X3: each of [gaussian_sigma], [gaussian_nonorm],
    [gaussian_der_nonorm], [gaussian_der], [drag_sigma] and [drag_der] reads
    [t_final] before [sigma]: with [t_final] missing it raises [KeyError] on
    [t_final], with [t_final] a plain float it raises [AttributeError], and
    with [t_final] a quantity and [sigma] missing it raises [KeyError] on
    [sigma]; the dict is unchanged every time. *)
Theorem gaussian_family_missing_parameter (t : list R) (params : gmap string pyval) :
  Forall (fun f : list R -> M pyret =>
            (params !! "t_final" = None ->
               f t params = (Raise (KeyError "t_final"), params))
            /\ (forall x, params !! "t_final" = Some (PyFloat x) ->
                  f t params = (Raise (AttributeError "get_value"), params))
            /\ (forall q, params !! "t_final" = Some (PyQty q) ->
                  params !! "sigma" = None ->
                  f t params = (Raise (KeyError "sigma"), params)))
         gaussian_family.
Proof.
  unfold gaussian_family. repeat apply Forall_cons_2; try apply Forall_nil_2.
  all: cbv beta; split; [| split].
  all: try (intros H; apply bind_raise, param_value_None, H).
  all: try (intros x H; apply bind_raise, (param_value_float _ _ x), H).
  all: intros q H Hs;
    match goal with |- ?f _ _ = _ => unfold f end;
    rewrite (bind_eq _ _ _ _ _ (param_value_Qty _ _ _ H));
    apply bind_raise, param_value_None, Hs.
Qed.

(** X4: [flattop_risefall] reads [t_up], [t_down], [risefall] in that
    order, [flattop_variant] reads [t_up], [t_down], [ramp], and the Fourier
    envelopes read [amps] before [freqs]; the first key that is missing is
    the one the [KeyError] names, and the dict is unchanged. *)
Theorem other_envelopes_missing_parameter (t : list R) (params : gmap string pyval) :
  (params !! "t_up" = None ->
     flattop_risefall t params = (Raise (KeyError "t_up"), params)
     /\ flattop_variant t params = (Raise (KeyError "t_up"), params))
  /\ (forall v, params !! "t_up" = Some v -> params !! "t_down" = None ->
        flattop_variant t params = (Raise (KeyError "t_down"), params)
        /\ forall q, v = PyQty q ->
             flattop_risefall t params = (Raise (KeyError "t_down"), params))
  /\ (forall u d, params !! "t_up" = Some u -> params !! "t_down" = Some d ->
        (params !! "ramp" = None ->
           flattop_variant t params = (Raise (KeyError "ramp"), params))
        /\ (forall qu qd, u = PyQty qu -> d = PyQty qd ->
              params !! "risefall" = None ->
              flattop_risefall t params = (Raise (KeyError "risefall"), params)))
  /\ (params !! "amps" = None ->
        fourier_sin t params = (Raise (KeyError "amps"), params)
        /\ fourier_cos t params = (Raise (KeyError "amps"), params))
  /\ (forall qa amps, params !! "amps" = Some (PyQty qa) ->
        Quantity.value qa = Vec amps -> params !! "freqs" = None ->
        fourier_sin t params = (Raise (KeyError "freqs"), params)
        /\ fourier_cos t params = (Raise (KeyError "freqs"), params)).
Proof.
  split; [| split; [| split; [| split]]].
  - intros H. split.
    + apply bind_raise, param_value_None, H.
    + apply bind_raise, getitem_None, H.
  - intros v Hu Hd. split.
    + unfold flattop_variant. rewrite (bind_eq _ _ _ _ _ (getitem_Some _ _ _ Hu)).
      apply bind_raise, getitem_None, Hd.
    + intros q ->. unfold flattop_risefall.
      rewrite (bind_eq _ _ _ _ _ (param_value_Qty _ _ _ Hu)).
      apply bind_raise, param_value_None, Hd.
  - intros u d Hu Hd. split.
    + intros Hr. unfold flattop_variant.
      rewrite (bind_eq _ _ _ _ _ (getitem_Some _ _ _ Hu)).
      rewrite (bind_eq _ _ _ _ _ (getitem_Some _ _ _ Hd)).
      apply bind_raise, getitem_None, Hr.
    + intros qu qd -> -> Hr. unfold flattop_risefall.
      rewrite (bind_eq _ _ _ _ _ (param_value_Qty _ _ _ Hu)).
      rewrite (bind_eq _ _ _ _ _ (param_value_Qty _ _ _ Hd)).
      apply bind_raise, param_value_None, Hr.
  - intros H. split; apply bind_raise, getitem_None, H.
  - intros qa amps Ha Hva Hf.
    assert (Hboth : forall trig, fourier trig t params = (Raise (KeyError "freqs"), params)).
    { intros trig. unfold fourier.
      rewrite (bind_eq _ _ _ _ _ (getitem_Some _ _ _ Ha)).
      unfold get_value at 1, Quantity.get_value, tf_cast, lift at 1.
      erewrite bind_eq by reflexivity.
      rewrite (bind_eq _ _ _ _ _ (getitem_Some _ _ _ Ha)).
      unfold get_shape0 at 1, Quantity.shape0, lift at 1. rewrite Hva.
      erewrite bind_eq by reflexivity.
      unfold tf_reshape_column at 1, lift at 1. rewrite decide_True by reflexivity.
      erewrite bind_eq by reflexivity.
      apply bind_raise, getitem_None, Hf. }
    split; apply Hboth.
Qed.

(** X5: after [gaussian] or [drag] on a scalar [t_final = T] the dict
    holds under [sigma] the quantity of value [T/4], bounds [T/8] and [T/2]
    and the unit of [t_final]; the value lies within these bounds when
    [T >= 0], and for [T < 0] the bounds are the wrong way round
    ([max < value < min]). *)
Theorem standard_sigma_bounds (t : list R) (params : gmap string pyval)
    (q : Quantity.t) (T : R) :
  params !! "t_final" = Some (PyQty q) -> Quantity.value q = Scalar T ->
  let sigma := PyQty (Quantity.Qty (Scalar (T / 4)) (Scalar (T / 8)) (Scalar (T / 2))
                                    (Quantity.unit q)) in
  snd (gaussian t params) !! "sigma" = Some sigma
  /\ snd (drag t params) !! "sigma" = Some sigma
  /\ (0 <= T -> T / 8 <= T / 4 <= T / 2)
  /\ (T < 0 -> T / 2 < T / 4 < T / 8).
Proof.
  intros H Hv sigma.
  assert (Hs : PyQty (standard_sigma q) = sigma).
  { unfold sigma, standard_sigma, Quantity.get_value. rewrite Hv. reflexivity. }
  split; [| split; [| split; intros; lra]].
  - rewrite (gaussian_run t _ q H), preserves_gaussian_sigma, Hs. apply lookup_insert_eq.
  - rewrite (drag_run t _ q H), preserves_drag_sigma, Hs. apply lookup_insert_eq.
Qed.

Lemma standard_sigma_bounds_witness :
  snd (gaussian [0; 5; 10] scenario_params) !! "sigma"
  = Some (PyQty (Quantity.Qty (Scalar (10 / 4)) (Scalar (10 / 8)) (Scalar (10 / 2)) "s"))
  /\ snd (drag [0; 5; 10] scenario_params) !! "sigma"
     = Some (PyQty (Quantity.Qty (Scalar (10 / 4)) (Scalar (10 / 8)) (Scalar (10 / 2)) "s"))
  /\ (0 <= 10 -> 10 / 8 <= 10 / 4 <= 10 / 2)
  /\ (10 < 0 -> 10 / 2 < 10 / 4 < 10 / 8).
Proof.
  apply (standard_sigma_bounds [0; 5; 10] scenario_params
           (Quantity.Qty (Scalar 10) (Scalar 0) (Scalar 20) "s") 10
           scenario_t_final eq_refl).
Defined.

(** X21: the decorator returns the function it was given, files it
    under its [__name__] and leaves every other name as it was; registering
    a second function of the same name replaces the first, and the last of
    a run of decorated definitions is always found under its name. *)
Theorem env_reg_deco_last_wins (envelopes0 : gmap string pyfunc) (f g : pyfunc) :
  fst (env_reg_deco g envelopes0) = g
  /\ snd (env_reg_deco g envelopes0) !! __name__ g = Some g
  /\ (forall name, name <> __name__ g ->
        snd (env_reg_deco g envelopes0) !! name = envelopes0 !! name)
  /\ (__name__ f = __name__ g ->
        snd (env_reg_deco g (snd (env_reg_deco f envelopes0)))
        = snd (env_reg_deco g envelopes0))
  /\ forall defs, registered envelopes0 (defs ++ [g]) !! __name__ g = Some g.
Proof.
  unfold env_reg_deco. simpl. split; [reflexivity | split; [apply lookup_insert_eq |]].
  split; [| split].
  - intros name Hname. apply lookup_insert_ne. congruence.
  - intros ->. apply insert_insert_eq.
  - intros defs. unfold registered. rewrite foldl_app. simpl. apply lookup_insert_eq.
Qed.

(** ** Shape of the Gaussian envelopes *)

Lemma gauss_spec_pos (T s e : R) : 0 < gauss_spec T s e.
Proof. apply exp_pos. Qed.

Lemma gauss_exponent_nonpos (T s e : R) :
  s <> 0 -> - (e - T / 2) ^ 2 / (2 * s ^ 2) <= 0.
Proof.
  intros Hs. assert (0 < 2 * s ^ 2) by nra.
  unfold Rdiv. assert (0 < / (2 * s ^ 2)) by (apply Rinv_0_lt_compat; lra).
  assert (0 <= (e - T / 2) ^ 2) by apply pow2_ge_0. nra.
Qed.

Lemma gauss_spec_le_1 (T s e : R) : s <> 0 -> gauss_spec T s e <= 1.
Proof.
  intros Hs. unfold gauss_spec. rewrite <- exp_0.
  destruct (gauss_exponent_nonpos T s e Hs) as [Hlt | Heq].
  - left. apply exp_increasing. exact Hlt.
  - rewrite Heq. lra.
Qed.

Lemma gauss_spec_peak (T s e : R) : s <> 0 -> gauss_spec T s e = 1 <-> e = T / 2.
Proof.
  intros Hs. split.
  - intros H. unfold gauss_spec in H. rewrite <- exp_0 in H. apply exp_inv in H.
    assert (H2 : 0 < 2 * s ^ 2) by nra.
    assert (Hsq : (e - T / 2) ^ 2 = 0).
    { apply (Rmult_eq_compat_r (2 * s ^ 2)) in H. field_simplify in H; nra. }
    nra.
  - intros ->. unfold gauss_spec. rewrite <- exp_0. f_equal.
    replace ((T / 2 - T / 2) ^ 2) with 0 by field. unfold Rdiv. ring.
Qed.

Lemma gauss_spec_reversed (T s e : R) : gauss_spec T s (T - e) = gauss_spec T s e.
Proof.
  unfold gauss_spec. f_equal.
  replace (T - e - T / 2) with (- (e - T / 2)) by field.
  replace ((- (e - T / 2)) ^ 2) with ((e - T / 2) ^ 2) by ring. reflexivity.
Qed.

(** The Gaussian term compared with the offset: above it strictly inside
    the pulse, below it strictly outside. *)
Lemma gauss_spec_vs_offset (T s e : R) :
  0 < T -> s <> 0 ->
  (0 < e < T -> offset_spec T s < gauss_spec T s e)
  /\ (e < 0 \/ T < e -> gauss_spec T s e < offset_spec T s).
Proof.
  intros HT Hs. assert (H2 : 0 < / (2 * s ^ 2)) by (apply Rinv_0_lt_compat; nra).
  assert (Hoff : offset_spec T s = exp (- (T / 2) ^ 2 / (2 * s ^ 2))).
  { unfold offset_spec. f_equal. field. exact Hs. }
  rewrite Hoff. unfold gauss_spec, Rdiv. split; intros He; apply exp_increasing.
  - assert ((e - T * / 2) ^ 2 < (T * / 2) ^ 2) by nra. nra.
  - assert ((T * / 2) ^ 2 < (e - T * / 2) ^ 2) by (destruct He; nra). nra.
Qed.

Lemma scenario_scalar_parameters : scalar_parameters scenario_params 10 2.
Proof.
  exists (Quantity.Qty (Scalar 10) (Scalar 0) (Scalar 20) "s"),
         (Quantity.Qty (Scalar 2) (Scalar 1) (Scalar 5) "s").
  repeat split; unfold scenario_params, seconds; lookup_entry.
Defined.

Lemma gaussian_sigma_values (t : list R) (params : gmap string pyval) (T s : R) :
  scalar_parameters params T s -> 0 < s ->
  gaussian_sigma t params
  = (Return (RTensor (Vec (map (gaussian_sigma_value T s) t))), params).
Proof.
  intros (qT & qs & HT & HvT & Hs & Hvs) Hpos.
  rewrite (gaussian_sigma_scalar params qT qs T s HT HvT Hs Hvs).
  rewrite <- norm_spec_code by lra. reflexivity.
Qed.

Lemma drag_sigma_values (t : list R) (params : gmap string pyval) (T s : R) :
  scalar_parameters params T s -> 0 < s ->
  drag_sigma t params
  = (Return (RTensor (Vec (map (drag_sigma_value T s) t))), params).
Proof.
  intros (qT & qs & HT & HvT & Hs & Hvs) Hpos.
  rewrite (drag_sigma_scalar params qT qs T s HT HvT Hs Hvs).
  rewrite <- norm_spec_code by lra. reflexivity.
Qed.

Lemma gaussian_nonorm_values (t : list R) (params : gmap string pyval) (T s : R) :
  scalar_parameters params T s ->
  gaussian_nonorm t params = (Return (RTensor (Vec (map (gauss_spec T s) t))), params).
Proof.
  intros (qT & qs & HT & HvT & Hs & Hvs).
  exact (gaussian_nonorm_scalar params qT qs T s HT HvT Hs Hvs t).
Qed.

Lemma float64_range_nonzero (x : R) : float64_range x -> x <> 0.
Proof. intros [Hlow _] ->. rewrite Rabs_R0 in Hlow. lra. Qed.

Lemma float64_range_positive (x : R) : 1e-100 <= x <= 1e100 -> float64_range x.
Proof. intros H. unfold float64_range. rewrite Rabs_pos_eq by lra. exact H. Qed.

(** X6: on scalar parameters with [sigma] in the range
    [float64_range] (1e-100 <= |sigma| <= 1e100), every value of
    [gaussian_nonorm] lies in [0, 1], the value at [t = t_final/2] is 1, and
    mirroring the time vector about [t_final/2] (t to t_final - t) leaves
    the result unchanged.  (The lower bound is not strict: float64 lets the
    exponential underflow to 0.0 far from the centre.) *)
Theorem gaussian_nonorm_unit_peak (t : list R) (params : gmap string pyval) (T s : R) :
  scalar_parameters params T s -> float64_range s ->
  exists values,
    gaussian_nonorm t params = (Return (RTensor (Vec values)), params)
    /\ Forall2 (fun e x => 0 <= x <= 1 /\ (e = T / 2 -> x = 1)) t values
    /\ gaussian_nonorm (time_reversed T t) params = gaussian_nonorm t params.
Proof.
  intros Hp Hs%float64_range_nonzero. exists (map (gauss_spec T s) t).
  split; [exact (gaussian_nonorm_values t params T s Hp) | split].
  - apply Forall2_map_same. intros e. split.
    + split; [left; apply gauss_spec_pos | apply gauss_spec_le_1, Hs].
    + apply gauss_spec_peak, Hs.
  - rewrite !(gaussian_nonorm_values _ params T s Hp). unfold time_reversed.
    rewrite map_map.
    rewrite (map_ext _ (gauss_spec T s) (gauss_spec_reversed T s)). reflexivity.
Qed.

Lemma gaussian_nonorm_unit_peak_witness :
  exists values,
    gaussian_nonorm [0; 5; 10] scenario_params
    = (Return (RTensor (Vec values)), scenario_params)
    /\ Forall2 (fun e x => 0 <= x <= 1 /\ (e = 10 / 2 -> x = 1)) [0; 5; 10] values
    /\ gaussian_nonorm (time_reversed 10 [0; 5; 10]) scenario_params
       = gaussian_nonorm [0; 5; 10] scenario_params.
Proof.
  apply (gaussian_nonorm_unit_peak [0; 5; 10] scenario_params 10 2
           scenario_scalar_parameters).
  apply float64_range_positive. lra.
Defined.

Lemma gaussian_sigma_value_sign (T s e : R) :
  0 < T -> 0 < s ->
  (0 < e < T -> 0 < gaussian_sigma_value T s e)
  /\ (e < 0 \/ T < e -> gaussian_sigma_value T s e < 0)
  /\ (e = 0 \/ e = T -> gaussian_sigma_value T s e = 0)
  /\ gaussian_sigma_value T s e <= (1 - offset_spec T s) / norm_spec T s.
Proof.
  intros HT Hs. pose proof (norm_spec_pos T s HT Hs) as Hn.
  assert (Hinv : 0 < / norm_spec T s) by (apply Rinv_0_lt_compat; exact Hn).
  assert (Hs0 : s <> 0) by lra.
  unfold gaussian_sigma_value, Rdiv.
  destruct (gauss_spec_vs_offset T s e HT Hs0) as [Hin Hout].
  pose proof (gauss_spec_le_1 T s e Hs0) as Hle.
  split; [| split; [| split]].
  - intros He. specialize (Hin He). nra.
  - intros He. specialize (Hout He). nra.
  - intros He. rewrite (gauss_spec_boundary T s e He), Rminus_diag. ring.
  - nra.
Qed.

(** The value at the centre of the pulse is positive. *)
Lemma gaussian_sigma_peak_pos (T s : R) :
  0 < T -> 0 < s -> 0 < (1 - offset_spec T s) / norm_spec T s.
Proof.
  intros HT Hs. pose proof (norm_spec_pos T s HT Hs) as Hn.
  assert (Hs0 : s <> 0) by lra.
  destruct (gauss_spec_vs_offset T s (T / 2) HT Hs0) as [Hin _].
  rewrite (proj2 (gauss_spec_peak T s (T / 2) Hs0) eq_refl) in Hin.
  apply Rdiv_lt_0_compat; [| exact Hn].
  assert (offset_spec T s < 1) by (apply Hin; lra). lra.
Qed.

(** X7: for [t_final] and [sigma] in the range [well_conditioned],
    [gaussian_sigma] is nowhere negative on [0, t_final], nowhere positive
    at and beyond the two ends, nowhere above its value
    [(1 - offset)/norm] at [t_final/2], which is positive, and unchanged
    when the time vector is mirrored about [t_final/2].  (The signs are not
    strict: float64 lets both exponentials underflow to 0.0 in the
    tails.) *)
Theorem gaussian_sigma_sign (t : list R) (params : gmap string pyval) (T s : R) :
  scalar_parameters params T s -> well_conditioned T s ->
  exists values,
    gaussian_sigma t params = (Return (RTensor (Vec values)), params)
    /\ Forall2 (fun e x => (0 <= e <= T -> 0 <= x)
                           /\ (e <= 0 \/ T <= e -> x <= 0)
                           /\ x <= (1 - offset_spec T s) / norm_spec T s) t values
    /\ 0 < (1 - offset_spec T s) / norm_spec T s
    /\ gaussian_sigma [T / 2] params
       = (Return (RTensor (Vec [(1 - offset_spec T s) / norm_spec T s])), params)
    /\ gaussian_sigma (time_reversed T t) params = gaussian_sigma t params.
Proof.
  intros Hp [HT Hs]%well_conditioned_pos. assert (Hs0 : s <> 0) by lra.
  exists (map (gaussian_sigma_value T s) t).
  split; [exact (gaussian_sigma_values t params T s Hp Hs) | split; [| split; [| split]]].
  - apply Forall2_map_same. intros e.
    destruct (gaussian_sigma_value_sign T s e HT Hs) as (Hin & Hout & Hends & Hmax).
    split; [| split; [| exact Hmax]].
    + intros [He0 HeT].
      destruct (Req_dec e 0) as [H0 | H0]; [rewrite Hends by (left; exact H0); lra |].
      destruct (Req_dec e T) as [H1 | H1]; [rewrite Hends by (right; exact H1); lra |].
      left. apply Hin. lra.
    + intros He.
      destruct (Req_dec e 0) as [H0 | H0]; [rewrite Hends by (left; exact H0); lra |].
      destruct (Req_dec e T) as [H1 | H1]; [rewrite Hends by (right; exact H1); lra |].
      left. apply Hout. lra.
  - exact (gaussian_sigma_peak_pos T s HT Hs).
  - rewrite (gaussian_sigma_values _ params T s Hp Hs). simpl.
    unfold gaussian_sigma_value. rewrite (proj2 (gauss_spec_peak T s (T / 2) Hs0) eq_refl).
    reflexivity.
  - rewrite !(gaussian_sigma_values _ params T s Hp Hs). unfold time_reversed.
    rewrite map_map.
    rewrite (map_ext _ (gaussian_sigma_value T s)); [reflexivity |].
    intros e. unfold gaussian_sigma_value. rewrite gauss_spec_reversed. reflexivity.
Qed.

Lemma gaussian_sigma_sign_witness :
  exists values,
    gaussian_sigma [0; 5; 10] scenario_params
    = (Return (RTensor (Vec values)), scenario_params)
    /\ Forall2 (fun e x => (0 <= e <= 10 -> 0 <= x)
                           /\ (e <= 0 \/ 10 <= e -> x <= 0)
                           /\ x <= (1 - offset_spec 10 2) / norm_spec 10 2)
               [0; 5; 10] values
    /\ 0 < (1 - offset_spec 10 2) / norm_spec 10 2
    /\ gaussian_sigma [10 / 2] scenario_params
       = (Return (RTensor (Vec [(1 - offset_spec 10 2) / norm_spec 10 2])), scenario_params)
    /\ gaussian_sigma (time_reversed 10 [0; 5; 10]) scenario_params
       = gaussian_sigma [0; 5; 10] scenario_params.
Proof.
  exact (gaussian_sigma_sign [0; 5; 10] scenario_params 10 2
           scenario_scalar_parameters scenario_well_conditioned).
Defined.

(** X8: for [t_final] and [sigma] in the range [well_conditioned],
    where float64 follows the real formula up to rounding, the function of
    time that [gaussian_sigma] samples has integral 1 over [0, t_final], as
    its docstring says (total area is 1). *)
Theorem gaussian_sigma_unit_area (t : list R) (params : gmap string pyval) (T s : R) :
  scalar_parameters params T s -> well_conditioned T s ->
  gaussian_sigma t params
  = (Return (RTensor (Vec (map (gaussian_sigma_value T s) t))), params)
  /\ forall pr : Riemann_integrable (gaussian_sigma_value T s) 0 T, RiemannInt pr = 1.
Proof.
  intros Hp [HT Hs]%well_conditioned_pos. split.
  - exact (gaussian_sigma_values t params T s Hp Hs).
  - intros pr. exact (gaussian_sigma_area T s pr HT Hs).
Qed.

Lemma gaussian_sigma_unit_area_witness :
  gaussian_sigma [0; 5; 10] scenario_params
  = (Return (RTensor (Vec (map (gaussian_sigma_value 10 2) [0; 5; 10]))), scenario_params)
  /\ RiemannInt (gaussian_sigma_value_integrable 10 2) = 1.
Proof.
  destruct (gaussian_sigma_unit_area [0; 5; 10] scenario_params 10 2
              scenario_scalar_parameters scenario_well_conditioned) as [Hrun Harea].
  split; [exact Hrun | apply Harea].
Defined.

(** ** [drag_sigma] and the slopes of the Gaussian family *)

Lemma Forall2_map_map {A B C : Type} (P : B -> C -> Prop) (f : A -> B) (g : A -> C)
    (l : list A) :
  (forall a, P (f a) (g a)) -> Forall2 P (map f l) (map g l).
Proof. intros H. induction l; simpl; constructor; auto. Qed.

(** X9: for [t_final] and [sigma] in the range [well_conditioned],
    the value of [drag_sigma] is 0 where the time is 0 or [t_final] and
    nowhere negative; each value is [norm] times the square of the value of
    [gaussian_sigma] at the same time; and the result is unchanged when the
    time vector is mirrored about [t_final/2]. *)
Theorem drag_sigma_zero_set (t : list R) (params : gmap string pyval) (T s : R) :
  scalar_parameters params T s -> well_conditioned T s ->
  exists gvals dvals : list R,
    gaussian_sigma t params = (Return (RTensor (Vec gvals)), params)
    /\ drag_sigma t params = (Return (RTensor (Vec dvals)), params)
    /\ Forall2 (fun e y => (e = 0 \/ e = T -> y = 0) /\ 0 <= y) t dvals
    /\ Forall2 (fun x y => y = norm_spec T s * x ^ 2) gvals dvals
    /\ drag_sigma (time_reversed T t) params = drag_sigma t params.
Proof.
  intros Hp [HT Hs]%well_conditioned_pos. pose proof (norm_spec_pos T s HT Hs) as Hn.
  assert (Hinv : 0 < / norm_spec T s) by (apply Rinv_0_lt_compat; exact Hn).
  exists (map (gaussian_sigma_value T s) t), (map (drag_sigma_value T s) t).
  split; [exact (gaussian_sigma_values t params T s Hp Hs) |].
  split; [exact (drag_sigma_values t params T s Hp Hs) |].
  split; [| split].
  - apply Forall2_map_same. intros e. unfold drag_sigma_value, Rdiv. split.
    + intros He. rewrite (gauss_spec_boundary T s e He), Rminus_diag. ring.
    + apply Rmult_le_pos; [apply pow2_ge_0 | lra].
  - apply Forall2_map_map. intros e. unfold drag_sigma_value, gaussian_sigma_value.
    field. lra.
  - rewrite !(drag_sigma_values _ params T s Hp Hs). unfold time_reversed.
    rewrite map_map.
    rewrite (map_ext _ (drag_sigma_value T s)); [reflexivity |].
    intros e. unfold drag_sigma_value. rewrite gauss_spec_reversed. reflexivity.
Qed.

Lemma drag_sigma_zero_set_witness :
  exists gvals dvals : list R,
    gaussian_sigma [0; 5; 10] scenario_params
    = (Return (RTensor (Vec gvals)), scenario_params)
    /\ drag_sigma [0; 5; 10] scenario_params
       = (Return (RTensor (Vec dvals)), scenario_params)
    /\ Forall2 (fun e y => (e = 0 \/ e = 10 -> y = 0) /\ 0 <= y) [0; 5; 10] dvals
    /\ Forall2 (fun x y => y = norm_spec 10 2 * x ^ 2) gvals dvals
    /\ drag_sigma (time_reversed 10 [0; 5; 10]) scenario_params
       = drag_sigma [0; 5; 10] scenario_params.
Proof.
  exact (drag_sigma_zero_set [0; 5; 10] scenario_params 10 2
           scenario_scalar_parameters scenario_well_conditioned).
Defined.



(** ** The derivative envelopes *)

Ltac tensor_eval_all :=
  tensor_eval;
  repeat first [ rewrite length_map | rewrite decide_same_length
               | rewrite map_map | rewrite zip_with_map_map ].







(** ** Negative [sigma]; [gaussian] and [drag] on [t_final] alone *)

Lemma erf_odd (x : R) : erf (- x) = - erf x.
Proof.
  unfold erf. fold (erf_integral (- x)) (erf_integral x).
  rewrite erf_integral_odd. ring.
Qed.

Lemma erf_pos (x : R) : 0 < x -> 0 < erf x.
Proof.
  intros Hx. unfold erf.
  pose proof (gauss_kernel_integral_above x Hx) as Hint.
  assert (0 < gauss_kernel x) by apply exp_pos.
  assert (Hpi : 0 < sqrt PI) by (apply sqrt_lt_R0, PI_RGT_0).
  apply Rmult_lt_0_compat; [apply Rdiv_lt_0_compat; lra | nra].
Qed.

Lemma norm_spec_even (T s : R) : norm_spec T (- s) = norm_spec T s.
Proof.
  unfold norm_spec. replace ((- s) ^ 2) with (s ^ 2) by ring. reflexivity.
Qed.

Lemma offset_spec_pos (T s : R) : 0 < offset_spec T s.
Proof. apply exp_pos. Qed.

Lemma norm_code_negative_sigma (T s : R) :
  s < 0 -> norm_code T s = - (norm_spec T s + 2 * T * offset_spec T s).
Proof.
  intros Hs. unfold norm_code, norm_spec, offset_spec, np_sqrt.
  assert (H8 : 0 < sqrt 8) by (apply sqrt_lt_R0; lra).
  replace (sqrt (8 * s ^ 2)) with (sqrt 8 * - s).
  2:{ replace (s ^ 2) with ((- s) ^ 2) by ring.
      rewrite (sqrt_mult 8 ((- s) ^ 2)) by nra. rewrite sqrt_pow2 by lra. reflexivity. }
  replace (T / (sqrt 8 * s)) with (- (T / (sqrt 8 * - s))) by (field; split; lra).
  rewrite erf_odd. ring.
Qed.

(** X12: [gaussian_sigma] accepts a negative [sigma] and does not
    treat it like its absolute value: with [sigma < 0] and [t_final] and
    [-sigma] in the range [well_conditioned], the normalisation the code
    computes, with [np.sqrt(8) * sigma] under the error function, is
    [-(norm + 2 * t_final * offset)], which is negative while the spec's
    [norm] is positive, so that no value on [0, t_final] is positive.  (Not
    strictly negative: where float64 rounds [gauss - offset] to 0 the code
    returns -0.0.) *)
Theorem gaussian_sigma_negative_sigma (t : list R) (params : gmap string pyval) (T s : R) :
  scalar_parameters params T s -> well_conditioned T (- s) ->
  exists values,
    gaussian_sigma t params = (Return (RTensor (Vec values)), params)
    /\ values = map (fun e => (gauss_spec T s e - offset_spec T s) / norm_code T s) t
    /\ norm_code T s = - (norm_spec T s + 2 * T * offset_spec T s)
    /\ norm_code T s < 0 < norm_spec T s
    /\ Forall2 (fun e x => 0 <= e <= T -> x <= 0) t values.
Proof.
  intros (qT & qs & HT & HvT & Hs & Hvs) [HTpos Hneg]%well_conditioned_pos.
  assert (Hneg' : s < 0) by lra.
  pose proof (norm_code_negative_sigma T s Hneg') as Hcode.
  assert (Hspec : 0 < norm_spec T s).
  { rewrite <- norm_spec_even. apply norm_spec_pos; lra. }
  pose proof (offset_spec_pos T s) as Hoff.
  assert (Hlt : norm_code T s < 0) by (rewrite Hcode; nra).
  eexists. split; [exact (gaussian_sigma_scalar params qT qs T s HT HvT Hs Hvs t) |].
  split; [reflexivity | split; [exact Hcode | split; [lra |]]].
  apply Forall2_map_same. intros e He.
  assert (Hinv : / norm_code T s < 0) by (apply Rinv_lt_0_compat; exact Hlt).
  assert (Hge : offset_spec T s <= gauss_spec T s e).
  { destruct (Req_dec e 0) as [H0 | H0];
      [rewrite (gauss_spec_boundary T s e (or_introl H0)); lra |].
    destruct (Req_dec e T) as [H1 | H1];
      [rewrite (gauss_spec_boundary T s e (or_intror H1)); lra |].
    destruct (gauss_spec_vs_offset T s e HTpos ltac:(lra)) as [Hin _].
    left. apply Hin. lra. }
  unfold Rdiv. nra.
Qed.

Lemma negative_sigma_scalar_parameters : scalar_parameters negative_sigma_params 10 (-2).
Proof.
  exists (Quantity.Qty (Scalar 10) (Scalar 0) (Scalar 20) "s"),
         (Quantity.Qty (Scalar (-2)) (Scalar (-5)) (Scalar (-1)) "s").
  repeat split; unfold negative_sigma_params, seconds; lookup_entry.
Defined.

Lemma gaussian_sigma_negative_sigma_witness :
  exists values,
    gaussian_sigma [0; 5; 10] negative_sigma_params
    = (Return (RTensor (Vec values)), negative_sigma_params)
    /\ values = map (fun e => (gauss_spec 10 (-2) e - offset_spec 10 (-2))
                              / norm_code 10 (-2)) [0; 5; 10]
    /\ norm_code 10 (-2) = - (norm_spec 10 (-2) + 2 * 10 * offset_spec 10 (-2))
    /\ norm_code 10 (-2) < 0 < norm_spec 10 (-2)
    /\ Forall2 (fun e x => 0 <= e <= 10 -> x <= 0) [0; 5; 10] values.
Proof.
  apply (gaussian_sigma_negative_sigma [0; 5; 10] negative_sigma_params 10 (-2)
           negative_sigma_scalar_parameters).
  unfold well_conditioned. repeat apply conj; lra.
Defined.



(** ** The Fourier envelopes: parity and superposition *)

Lemma components_parameters (amps freqs : list R) :
  fourier_parameters (components amps freqs) amps freqs.
Proof.
  exists (Quantity.Qty (Vec amps) (Vec []) (Vec []) "V"),
         (Quantity.Qty (Vec freqs) (Vec []) (Vec []) "Hz").
  repeat split; unfold components; lookup_entry.
Defined.

(** The table of products is all that can stop a Fourier envelope whose
    two parameters are rank-1 quantities. *)
Lemma fourier_run (trig : R -> R) (t : list R) (params : gmap string pyval)
    (amps freqs : list R) :
  fourier_parameters params amps freqs ->
  fourier trig t params
  = (obind (column_times_table amps (map (map trig) (column_times_row freqs t)))
       (fun table => Return (RTensor (Vec (tf_reduce_sum_0 (length t) table)))),
     params).
Proof.
  intros (qa & qf & Ha & Hva & Hf & Hvf). unfold fourier.
  rewrite (bind_eq _ _ _ _ _ (getitem_Some _ _ _ Ha)).
  unfold get_value at 1, Quantity.get_value, tf_cast, lift at 1.
  erewrite bind_eq by reflexivity.
  rewrite (bind_eq _ _ _ _ _ (getitem_Some _ _ _ Ha)).
  unfold get_shape0 at 1, Quantity.shape0, lift at 1. rewrite Hva.
  erewrite bind_eq by reflexivity.
  unfold tf_reshape_column at 1, lift at 1. rewrite decide_True by reflexivity.
  erewrite bind_eq by reflexivity.
  rewrite (bind_eq _ _ _ _ _ (getitem_Some _ _ _ Hf)).
  unfold get_value at 1, Quantity.get_value, lift at 1.
  erewrite bind_eq by reflexivity.
  rewrite (bind_eq _ _ _ _ _ (getitem_Some _ _ _ Hf)).
  unfold get_shape0 at 1, Quantity.shape0, lift at 1. rewrite Hvf.
  erewrite bind_eq by reflexivity.
  unfold tf_reshape_column at 1, lift at 1. rewrite decide_True by reflexivity.
  erewrite bind_eq by reflexivity.
  cbv zeta. unfold lift, bind, ret.
  destruct (column_times_table _ _); reflexivity.
Qed.

Lemma fourier_values (trig : R -> R) (t : list R) (params : gmap string pyval)
    (amps freqs : list R) :
  fourier_parameters params amps freqs -> length amps = length freqs ->
  fourier trig t params
  = (Return (RTensor (Vec (map (fourier_sum trig amps freqs) t))), params).
Proof.
  intros (qa & qf & Ha & Hva & Hf & Hvf) Hlen.
  exact (fourier_equal_lengths trig t params qa qf amps freqs Ha Hva Hf Hvf Hlen).
Qed.

Lemma fourier_sum_sin_odd (amps freqs : list R) (e : R) :
  fourier_sum sin amps freqs (- e) = - fourier_sum sin amps freqs e.
Proof.
  unfold fourier_sum. revert freqs.
  induction amps as [| a amps IH]; intros [| f freqs]; simpl; try ring.
  rewrite IH. replace (f * - e) with (- (f * e)) by ring. rewrite sin_neg. ring.
Qed.

Lemma fourier_sum_cos_even (amps freqs : list R) (e : R) :
  fourier_sum cos amps freqs (- e) = fourier_sum cos amps freqs e.
Proof.
  unfold fourier_sum. revert freqs.
  induction amps as [| a amps IH]; intros [| f freqs]; simpl; try ring.
  rewrite IH. replace (f * - e) with (- (f * e)) by ring. rewrite cos_neg. ring.
Qed.

Lemma fourier_sum_sin_0 (amps freqs : list R) : fourier_sum sin amps freqs 0 = 0.
Proof.
  unfold fourier_sum. revert freqs.
  induction amps as [| a amps IH]; intros [| f freqs]; simpl; try ring.
  rewrite IH, Rmult_0_r, sin_0. ring.
Qed.

Lemma fourier_sum_cos_0 (amps freqs : list R) :
  length amps = length freqs -> fourier_sum cos amps freqs 0 = foldr Rplus 0 amps.
Proof.
  unfold fourier_sum. revert freqs.
  induction amps as [| a amps IH]; intros [| f freqs] Hlen; simpl in *;
    try discriminate; try ring.
  rewrite IH by lia. rewrite Rmult_0_r, cos_0. ring.
Qed.

(** X14: with [amps] and [freqs] of equal length, [fourier_sin] is odd
    and [fourier_cos] is even in time (negating every time negates, resp.
    keeps, the result); at time 0 [fourier_sin] gives 0 and [fourier_cos]
    gives the sum of the amplitudes. *)
Theorem fourier_parity (t : list R) (params : gmap string pyval) (amps freqs : list R) :
  fourier_parameters params amps freqs -> length amps = length freqs ->
  exists s c : list R,
    fourier_sin t params = (Return (RTensor (Vec s)), params)
    /\ fourier_cos t params = (Return (RTensor (Vec c)), params)
    /\ fourier_sin (map Ropp t) params = (Return (RTensor (Vec (map Ropp s))), params)
    /\ fourier_cos (map Ropp t) params = (Return (RTensor (Vec c)), params)
    /\ fourier_sin [0] params = (Return (RTensor (Vec [0])), params)
    /\ fourier_cos [0] params = (Return (RTensor (Vec [foldr Rplus 0 amps])), params).
Proof.
  intros Hp Hlen. unfold fourier_sin, fourier_cos.
  exists (map (fourier_sum sin amps freqs) t), (map (fourier_sum cos amps freqs) t).
  rewrite !(fourier_values _ _ params amps freqs Hp Hlen).
  repeat apply conj; try reflexivity.
  - rewrite !map_map.
    rewrite (map_ext _ (fun e => - fourier_sum sin amps freqs e)
               (fourier_sum_sin_odd amps freqs)). reflexivity.
  - rewrite map_map.
    rewrite (map_ext _ (fourier_sum cos amps freqs) (fourier_sum_cos_even amps freqs)).
    reflexivity.
  - simpl. rewrite fourier_sum_sin_0. reflexivity.
  - simpl. rewrite (fourier_sum_cos_0 amps freqs Hlen). reflexivity.
Qed.

Lemma fourier_parity_witness :
  exists s c : list R,
    fourier_sin [1; 2] (components [3; 4] [5; 6])
    = (Return (RTensor (Vec s)), components [3; 4] [5; 6])
    /\ fourier_cos [1; 2] (components [3; 4] [5; 6])
       = (Return (RTensor (Vec c)), components [3; 4] [5; 6])
    /\ fourier_sin (map Ropp [1; 2]) (components [3; 4] [5; 6])
       = (Return (RTensor (Vec (map Ropp s))), components [3; 4] [5; 6])
    /\ fourier_cos (map Ropp [1; 2]) (components [3; 4] [5; 6])
       = (Return (RTensor (Vec c)), components [3; 4] [5; 6])
    /\ fourier_sin [0] (components [3; 4] [5; 6])
       = (Return (RTensor (Vec [0])), components [3; 4] [5; 6])
    /\ fourier_cos [0] (components [3; 4] [5; 6])
       = (Return (RTensor (Vec [foldr Rplus 0 [3; 4]])), components [3; 4] [5; 6]).
Proof.
  apply (fourier_parity [1; 2] (components [3; 4] [5; 6]) [3; 4] [5; 6]
           (components_parameters _ _) eq_refl).
Defined.

Lemma fourier_sum_app (trig : R -> R) (a1 f1 a2 f2 : list R) (e : R) :
  length a1 = length f1 ->
  fourier_sum trig (a1 ++ a2) (f1 ++ f2) e
  = fourier_sum trig a1 f1 e + fourier_sum trig a2 f2 e.
Proof.
  unfold fourier_sum. revert f1.
  induction a1 as [| a a1 IH]; intros [| f f1] Hlen; simpl in *; try discriminate.
  - ring.
  - rewrite IH by lia. ring.
Qed.

(** X15: the Fourier envelopes add up: the result for the components
    [amps1 ++ amps2], [freqs1 ++ freqs2] is the pointwise sum of the results
    for [amps1], [freqs1] and for [amps2], [freqs2]. *)
Theorem fourier_superposition (t : list R) (p1 p2 p12 : gmap string pyval)
    (a1 f1 a2 f2 : list R) :
  fourier_parameters p1 a1 f1 -> fourier_parameters p2 a2 f2 ->
  fourier_parameters p12 (a1 ++ a2) (f1 ++ f2) ->
  length a1 = length f1 -> length a2 = length f2 ->
  exists s1 s2 c1 c2 : list R,
    fourier_sin t p1 = (Return (RTensor (Vec s1)), p1)
    /\ fourier_sin t p2 = (Return (RTensor (Vec s2)), p2)
    /\ fourier_sin t p12 = (Return (RTensor (Vec (zip_with Rplus s1 s2))), p12)
    /\ fourier_cos t p1 = (Return (RTensor (Vec c1)), p1)
    /\ fourier_cos t p2 = (Return (RTensor (Vec c2)), p2)
    /\ fourier_cos t p12 = (Return (RTensor (Vec (zip_with Rplus c1 c2))), p12).
Proof.
  intros H1 H2 H12 L1 L2. unfold fourier_sin, fourier_cos.
  assert (L12 : length (a1 ++ a2) = length (f1 ++ f2))
    by (rewrite !length_app; lia).
  exists (map (fourier_sum sin a1 f1) t), (map (fourier_sum sin a2 f2) t),
         (map (fourier_sum cos a1 f1) t), (map (fourier_sum cos a2 f2) t).
  rewrite !(fourier_values _ _ p1 a1 f1 H1 L1), !(fourier_values _ _ p2 a2 f2 H2 L2),
          !(fourier_values _ _ p12 _ _ H12 L12), !zip_with_map_map.
  repeat apply conj; try reflexivity.
  - rewrite (map_ext _ _ (fun e => fourier_sum_app sin a1 f1 a2 f2 e L1)). reflexivity.
  - rewrite (map_ext _ _ (fun e => fourier_sum_app cos a1 f1 a2 f2 e L1)). reflexivity.
Qed.

Lemma fourier_superposition_witness :
  exists s1 s2 c1 c2 : list R,
    fourier_sin [1; 2] (components [3] [5]) = (Return (RTensor (Vec s1)), components [3] [5])
    /\ fourier_sin [1; 2] (components [4] [6])
       = (Return (RTensor (Vec s2)), components [4] [6])
    /\ fourier_sin [1; 2] (components ([3] ++ [4]) ([5] ++ [6]))
       = (Return (RTensor (Vec (zip_with Rplus s1 s2))),
          components ([3] ++ [4]) ([5] ++ [6]))
    /\ fourier_cos [1; 2] (components [3] [5]) = (Return (RTensor (Vec c1)), components [3] [5])
    /\ fourier_cos [1; 2] (components [4] [6])
       = (Return (RTensor (Vec c2)), components [4] [6])
    /\ fourier_cos [1; 2] (components ([3] ++ [4]) ([5] ++ [6]))
       = (Return (RTensor (Vec (zip_with Rplus c1 c2))),
          components ([3] ++ [4]) ([5] ++ [6])).
Proof.
  apply (fourier_superposition [1; 2] _ _ _ [3] [5] [4] [6]
           (components_parameters _ _) (components_parameters _ _)
           (components_parameters _ _) eq_refl eq_refl).
Defined.

(** ** The Fourier envelopes: broadcasting *)

(** X16: when [amps] and [freqs] have different lengths and neither
    has length 1, the product [amps * trig(freqs * t)] cannot be broadcast:
    [fourier_sin] and [fourier_cos] raise and return no partial result; the
    dict is unchanged. *)
Theorem fourier_length_mismatch (t : list R) (params : gmap string pyval)
    (amps freqs : list R) :
  fourier_parameters params amps freqs ->
  length amps <> length freqs -> length amps <> 1%nat -> length freqs <> 1%nat ->
  fourier_sin t params = (Raise InvalidArgumentError, params)
  /\ fourier_cos t params = (Raise InvalidArgumentError, params).
Proof.
  intros Hp Hne Ha Hf. unfold fourier_sin, fourier_cos.
  rewrite !(fourier_run _ t params amps freqs Hp).
  assert (Htable : forall trig,
            column_times_table amps (map (map trig) (column_times_row freqs t))
            = Raise InvalidArgumentError).
  { intros trig. unfold column_times_table.
    rewrite decide_False by (rewrite length_column_times_row; exact Hne).
    destruct amps as [| a [| a' amps]]; destruct freqs as [| f [| f' freqs]];
      simpl in *; try reflexivity; congruence. }
  rewrite !Htable. split; reflexivity.
Qed.

Lemma fourier_length_mismatch_witness :
  fourier_sin [1; 2] (components [3; 4] [5; 6; 7])
  = (Raise InvalidArgumentError, components [3; 4] [5; 6; 7])
  /\ fourier_cos [1; 2] (components [3; 4] [5; 6; 7])
     = (Raise InvalidArgumentError, components [3; 4] [5; 6; 7]).
Proof.
  apply (fourier_length_mismatch [1; 2] _ [3; 4] [5; 6; 7] (components_parameters _ _));
    simpl; lia.
Defined.

Lemma tf_reduce_sum_0_single_amp (trig : R -> R) (a : R) (t freqs : list R) :
  tf_reduce_sum_0 (length t)
    (map (map (Rmult a)) (map (map trig) (column_times_row freqs t)))
  = map (fourier_sum trig (repeat a (length freqs)) freqs) t.
Proof.
  unfold tf_reduce_sum_0, column_times_row, fourier_sum.
  induction freqs as [| f freqs IH]; simpl; [apply repeat_as_map |].
  rewrite IH, !map_map, zip_with_map_map. reflexivity.
Qed.

Lemma tf_reduce_sum_0_single_freq (trig : R -> R) (f : R) (t amps : list R) :
  tf_reduce_sum_0 (length t)
    (map (fun a => map (Rmult a) (map trig (map (fun e => f * e) t))) amps)
  = map (fourier_sum trig amps (repeat f (length amps))) t.
Proof.
  unfold tf_reduce_sum_0, fourier_sum.
  induction amps as [| a amps IH]; simpl; [apply repeat_as_map |].
  rewrite IH, !map_map, zip_with_map_map. reflexivity.
Qed.

(** X17: equal lengths are not required when one side has a single
    entry: a single amplitude is applied to every frequency, and a single
    frequency is shared by every amplitude, as if it were repeated to the
    other's length. *)
Theorem fourier_single_component_shared (trig : R -> R) (t : list R)
    (params : gmap string pyval) (amps freqs : list R) (x : R) :
  fourier_parameters params amps freqs ->
  (amps = [x] ->
     fourier trig t params
     = (Return (RTensor (Vec (map (fourier_sum trig (repeat x (length freqs)) freqs) t))),
        params))
  /\ (freqs = [x] ->
        fourier trig t params
        = (Return (RTensor (Vec (map (fourier_sum trig amps (repeat x (length amps))) t))),
           params)).
Proof.
  intros Hp. rewrite (fourier_run trig t params amps freqs Hp). split; intros ->.
  - unfold column_times_table. rewrite length_column_times_row.
    destruct (decide (length [x] = length freqs)) as [Hlen | Hlen].
    + destruct freqs as [| f [| f' freqs]]; try discriminate. simpl.
      unfold tf_reduce_sum_0, fourier_sum. simpl.
      rewrite !map_map, repeat_as_map, zip_with_map_map. reflexivity.
    + simpl. rewrite tf_reduce_sum_0_single_amp. reflexivity.
  - unfold column_times_table. rewrite length_column_times_row.
    destruct (decide (length amps = length [x])) as [Hlen | Hlen].
    + destruct amps as [| a [| a' amps]]; try discriminate. simpl.
      unfold tf_reduce_sum_0, fourier_sum. simpl.
      rewrite !map_map, repeat_as_map, zip_with_map_map. reflexivity.
    + destruct amps as [| a [| a' amps]]; simpl in *; try congruence.
      * rewrite repeat_as_map. reflexivity.
      * pose proof (tf_reduce_sum_0_single_freq trig x t (a :: a' :: amps)) as H.
        simpl in H. exact (f_equal (fun v => (Return (RTensor (Vec v)), params)) H).
Qed.

Lemma fourier_single_component_shared_witness :
  fourier sin [1; 2] (components [3] [5; 6; 7])
  = (Return (RTensor (Vec (map (fourier_sum sin (repeat 3 (length [5; 6; 7])) [5; 6; 7])
                               [1; 2]))), components [3] [5; 6; 7])
  /\ fourier sin [1; 2] (components [3; 4; 5] [6])
     = (Return (RTensor (Vec (map (fourier_sum sin [3; 4; 5] (repeat 6 (length [3; 4; 5])))
                                  [1; 2]))), components [3; 4; 5] [6]).
Proof.
  split.
  - exact (proj1 (fourier_single_component_shared sin [1; 2] _ [3] [5; 6; 7] 3
                    (components_parameters _ _)) eq_refl).
  - exact (proj2 (fourier_single_component_shared sin [1; 2] _ [3; 4; 5] [6] 6
                    (components_parameters _ _)) eq_refl).
Defined.

(** ** [flattop_variant] with a ramp *)

Lemma window_float_window (t_up t_down ramp : R) :
  float_window (window t_up t_down ramp) t_up t_down ramp.
Proof. repeat split; unfold window; lookup_entry. Defined.

Lemma flattop_variant_values (t : list R) (params : gmap string pyval)
    (t_up t_down ramp : R) :
  float_window params t_up t_down ramp ->
  flattop_variant t params
  = (Return (RTensor (Vec (map (flattop_variant_value t_up t_down
                                  (clamped_ramp t_up t_down ramp)
                                  (np_sqrt 2 * clamped_ramp t_up t_down ramp * 0.2)) t))),
     params).
Proof.
  intros (Hu & Hd & Hr). exact (flattop_variant_floats t params t_up t_down ramp Hu Hd Hr).
Qed.

(** X18: a [ramp] of half the window or more is cut to half the
    window: [flattop_variant] returns for it what it returns for
    [ramp = (t_down - t_up)/2]. *)
Theorem flattop_variant_ramp_clamped (t : list R) (params : gmap string pyval)
    (t_up t_down ramp : R) :
  float_window params t_up t_down ramp -> (t_down - t_up) / 2 <= ramp ->
  fst (flattop_variant t params)
  = fst (flattop_variant t (<["ramp" := PyFloat ((t_down - t_up) / 2)]> params)).
Proof.
  intros Hw Hramp.
  assert (Hw' : float_window (<["ramp" := PyFloat ((t_down - t_up) / 2)]> params)
                  t_up t_down ((t_down - t_up) / 2)).
  { destruct Hw as (Hu & Hd & Hr). repeat split.
    - rewrite lookup_insert_ne by discriminate. exact Hu.
    - rewrite lookup_insert_ne by discriminate. exact Hd.
    - apply lookup_insert_eq. }
  rewrite (flattop_variant_values t _ _ _ _ Hw), (flattop_variant_values t _ _ _ _ Hw').
  assert (Hc : clamped_ramp t_up t_down ramp
               = clamped_ramp t_up t_down ((t_down - t_up) / 2)).
  { unfold clamped_ramp. repeat case_decide; lra. }
  rewrite Hc. reflexivity.
Qed.

Lemma flattop_variant_ramp_clamped_witness :
  fst (flattop_variant [1; 5; 9] (window 2 8 100))
  = fst (flattop_variant [1; 5; 9] (<["ramp" := PyFloat ((8 - 2) / 2)]> (window 2 8 100))).
Proof.
  apply (flattop_variant_ramp_clamped [1; 5; 9] _ 2 8 100 (window_float_window _ _ _)). lra.
Defined.





(** ** [flattop_risefall] on scalar parameters *)

Lemma risefall_params_parameters : risefall_parameters risefall_params 2 8 1.
Proof.
  exists (Quantity.Qty (Scalar 2) (Scalar 0) (Scalar 10) "s"),
         (Quantity.Qty (Scalar 8) (Scalar 0) (Scalar 10) "s"),
         (Quantity.Qty (Scalar 1) (Scalar 0) (Scalar 2) "s").
  repeat split; unfold risefall_params, flattop_params, seconds; lookup_entry.
Defined.

Lemma flattop_risefall_values (t : list R) (params : gmap string pyval)
    (t_up t_down risefall : R) :
  risefall_parameters params t_up t_down risefall ->
  flattop_risefall t params
  = (Return (RTensor (Vec (map (flattop_risefall_value t_up t_down risefall) t))), params).
Proof.
  intros (qu & qd & qr & Hu & Hvu & Hd & Hvd & Hr & Hvr). unfold flattop_risefall.
  rewrite (bind_eq _ _ _ _ _ (param_value_Qty _ _ _ Hu)), Hvu.
  rewrite (bind_eq _ _ _ _ _ (param_value_Qty _ _ _ Hd)), Hvd.
  rewrite (bind_eq _ _ _ _ _ (param_value_Qty _ _ _ Hr)), Hvr.
  tensor_eval_all. reflexivity.
Qed.

(** X20: on scalar parameters with [risefall > 0], every value of
    [flattop_risefall] strictly inside (t_up, t_down) is above 1/4; at
    [t_up] and at [t_down] the value is [(1 + erf((t_down - t_up)/risefall))/4],
    the ramp factor being exactly one half there; and the result is
    unchanged when the time vector is mirrored about the middle of the
    window (t to t_up + t_down - t). *)
Theorem flattop_risefall_window (t : list R) (params : gmap string pyval)
    (t_up t_down risefall : R) :
  risefall_parameters params t_up t_down risefall -> 0 < risefall ->
  exists values,
    flattop_risefall t params = (Return (RTensor (Vec values)), params)
    /\ values = map (flattop_risefall_value t_up t_down risefall) t
    /\ Forall2 (fun e x =>
                  (t_up < e < t_down -> 1 / 4 < x)
                  /\ (e = t_up \/ e = t_down ->
                        x = (1 + erf ((t_down - t_up) / risefall)) / 4)) t values
    /\ flattop_risefall (map (fun e => t_up + t_down - e) t) params
       = flattop_risefall t params.
Proof.
  intros Hp Hr. eexists.
  split; [exact (flattop_risefall_values t params _ _ _ Hp) |].
  split; [reflexivity | split].
  - apply Forall2_map_same. intros e. unfold flattop_risefall_value. split.
    + intros He.
      assert (H1 : 0 < erf ((e - t_up) / risefall))
        by (apply erf_pos, Rdiv_lt_0_compat; lra).
      assert (H2 : 0 < erf ((- e + t_down) / risefall))
        by (apply erf_pos, Rdiv_lt_0_compat; lra).
      nra.
    + intros [-> | ->].
      * replace ((t_up - t_up) / risefall) with 0 by (field; lra).
        replace (- t_up + t_down) with (t_down - t_up) by ring.
        rewrite erf_0. field.
      * replace ((- t_down + t_down) / risefall) with 0 by (field; lra).
        rewrite erf_0. field.
  - rewrite !(flattop_risefall_values _ params _ _ _ Hp), map_map.
    rewrite (map_ext _ (flattop_risefall_value t_up t_down risefall)); [reflexivity |].
    intros e. unfold flattop_risefall_value.
    replace (t_up + t_down - e - t_up) with (- e + t_down) by ring.
    replace (- (t_up + t_down - e) + t_down) with (e - t_up) by ring.
    field.
Qed.

Lemma flattop_risefall_window_witness :
  exists values,
    flattop_risefall [2; 5; 8] risefall_params
    = (Return (RTensor (Vec values)), risefall_params)
    /\ values = map (flattop_risefall_value 2 8 1) [2; 5; 8]
    /\ Forall2 (fun e x =>
                  (2 < e < 8 -> 1 / 4 < x)
                  /\ (e = 2 \/ e = 8 -> x = (1 + erf ((8 - 2) / 1)) / 4)) [2; 5; 8] values
    /\ flattop_risefall (map (fun e => 2 + 8 - e) [2; 5; 8]) risefall_params
       = flattop_risefall [2; 5; 8] risefall_params.
Proof.
  apply (flattop_risefall_window [2; 5; 8] risefall_params 2 8 1
           risefall_params_parameters). lra.
Defined.
